(** * njses-aws-s3: the [AWSS3Bucket] facade and its stream helpers

    A shallow embedding of [src/bucket.ts] (class [AWSS3Bucket]) and of the
    helpers [blobToReadable], [streamToString] and [xserializeMetadata] of
    [src/utils.ts].

    The storage SDK is an external collaborator.  A facade method builds a
    command object and hands it to [client.send]; here a client is any
    function from a command and a backend state to a result and a new
    backend state, and every request that reaches it is recorded in a log. *)

From Stdlib Require Import ZArith NArith Strings.Byte.
From stdpp Require Import gmap strings list fin_maps.

Local Open Scope Z_scope.

(** ** Values that cross the JavaScript boundary *)

(** What a rejected promise carries.  The facade never builds one of these
    itself; the names follow the error taxonomy of the specification. *)
Inductive Error : Type :=
  | NotFound
  | BackendError (code : string)
  | ValidationError.

(** A settled promise. *)
Inductive Result (A : Type) : Type :=
  | Ok (a : A)
  | Thrown (e : Error).
Arguments Ok {A} a.
Arguments Thrown {A} e.

(** A property value of a metadata object.  TypeScript's
    [M extends Record<string, string>] and [Partial<M>] are erased at run
    time; [Partial<M>] allows a property whose value is [undefined]. *)
Inductive JSValue : Type :=
  | JSUndefined
  | JSString (s : string).

#[global] Instance JSValue_eq_dec : EqDecision JSValue.
Proof. solve_decision. Defined.

(** A plain object used as a string-keyed map. [o !! k = None] is an absent
    property, [o !! k = Some JSUndefined] a property holding [undefined]. *)
Abbreviation JSObject := (gmap string JSValue).

(** [o[k]]: reading an absent property gives [undefined]. *)
Definition js_get (o : JSObject) (k : string) : JSValue :=
  default JSUndefined (o !! k).

(** [k in o]. *)
Definition js_has (o : JSObject) (k : string) : bool :=
  bool_decide (is_Some (o !! k)).

(** [Object.assign(target, source)]: every own property of [source],
    whatever its value, is defined on [target]. *)
Definition Object_assign (target source : JSObject) : JSObject :=
  source ∪ target.

(** [m || {}] for [m] an object or [undefined]: an object is truthy even
    when it has no property. *)
Definition or_empty (m : option JSObject) : JSObject := default ∅ m.

(** The object literal [{ ...a, ...b }]. *)
Definition spread (a b : JSObject) : JSObject :=
  Object_assign (Object_assign ∅ a) b.

Abbreviation Buffer := (list byte).

(** A [Readable] as its consumer sees it: the chunks of its [data] events,
    then either [end] or [error]. *)
Inductive StreamEnd : Type :=
  | Ended
  | Errored (e : Error).

Record Readable : Type := mkReadable {
  chunks : list Buffer;
  ending : StreamEnd
}.

(** An object of the bucket: its payload and its metadata. *)
Record S3Object : Type := mkObject {
  payload : Buffer;
  metadata : gmap string string
}.

(** ** The storage SDK: command inputs and outputs *)

(** Every input property is optional in the object literal that builds a
    command, so that [{ Bucket, Key, ...input }] is a spread of two records
    of the same shape.  [Other] stands for the input fields the facade never
    names. *)
Module Keyed.
(** Input of [GetObjectCommand], [HeadObjectCommand], [DeleteObjectCommand]. *)
Record Input : Type := mk {
  Bucket : option string;
  Key : option string;
  Other : gmap string string
}.
Definition empty : Input := mk None None ∅.
(** [{ ...a, ...b }] *)
Definition spread (a b : Input) : Input :=
  mk (Bucket b ∪ Bucket a) (Key b ∪ Key a) (Other b ∪ Other a).
End Keyed.

Module CopyObject.
Record Input : Type := mk {
  Bucket : option string;
  CopySource : option string;
  Key : option string;
  MetadataDirective : option string;
  Metadata : option JSObject;
  Other : gmap string string
}.
Definition empty : Input := mk None None None None None ∅.
Definition spread (a b : Input) : Input :=
  mk (Bucket b ∪ Bucket a) (CopySource b ∪ CopySource a) (Key b ∪ Key a)
     (MetadataDirective b ∪ MetadataDirective a) (Metadata b ∪ Metadata a)
     (Other b ∪ Other a).
Record Output : Type := mkOutput { ETag : option string }.
End CopyObject.

Module DeleteObjects.
Record ObjectIdentifier : Type := mkId { Key : string }.
Record Delete : Type := mkDelete { Objects : list ObjectIdentifier }.
Record Input : Type := mk {
  Bucket : option string;
  Delete_ : option Delete;
  Other : gmap string string
}.
Definition empty : Input := mk None None ∅.
Definition spread (a b : Input) : Input :=
  mk (Bucket b ∪ Bucket a) (Delete_ b ∪ Delete_ a) (Other b ∪ Other a).
Record Output : Type := mkOutput { Deleted : list string }.
End DeleteObjects.

Module GetObject.
Record Output : Type := mkOutput {
  Body : option Readable;
  Metadata : option JSObject
}.
End GetObject.

Module HeadObject.
Record Output : Type := mkOutput { Metadata : option JSObject }.
End HeadObject.

Module DeleteObject.
Record Output : Type := mkOutput { DeleteMarker : option bool }.
End DeleteObject.

(** [new XCommand(input)] *)
Inductive Command : Type :=
  | GetObjectCommand (input : Keyed.Input)
  | HeadObjectCommand (input : Keyed.Input)
  | DeleteObjectCommand (input : Keyed.Input)
  | DeleteObjectsCommand (input : DeleteObjects.Input)
  | CopyObjectCommand (input : CopyObject.Input).

(** The type a command's promise resolves to. *)
Definition Output (c : Command) : Type :=
  match c with
  | GetObjectCommand _ => GetObject.Output
  | HeadObjectCommand _ => HeadObject.Output
  | DeleteObjectCommand _ => DeleteObject.Output
  | DeleteObjectsCommand _ => DeleteObjects.Output
  | CopyObjectCommand _ => CopyObject.Output
  end.

(** [S3Client]: [send] answers a command in a backend state. *)
Definition S3Client (St : Type) : Type :=
  ∀ c : Command, St → Result (Output c) * St.

(** ** Asynchronous code *)

(** The world an [async] method runs in: the backend behind the client and
    the requests sent so far, oldest first. *)
Record World (St : Type) : Type := mkWorld {
  backend : St;
  requests : list Command
}.
Arguments mkWorld {St} backend requests.
Arguments backend {St} w.
Arguments requests {St} w.

(** A promise-returning computation. [await] is the bind: a rejection skips
    the rest of the method body. *)
Definition Async (St A : Type) : Type := World St → Result A * World St.

#[global] Instance Async_ret {St} : MRet (Async St) :=
  λ A a w, (Ok a, w).

#[global] Instance Async_bind {St} : MBind (Async St) :=
  λ A B k m w,
    match m w with
    | (Ok a, w') => k a w'
    | (Thrown e, w') => (Thrown e, w')
    end.

(** [client.send(command)] *)
Definition client_send {St} (client : S3Client St) (c : Command)
  : Async St (Output c) :=
  λ w, let '(r, s') := client c (backend w) in
       (r, mkWorld s' (requests w ++ [c])).

(** ** src/utils.ts *)

(** [xserializeMetadata]: the [reduce] skips a property whose value is
    [undefined] and stores [value.toString()] otherwise.  The guard for an
    argument that is no object never fires on a [JSObject]. *)
Definition xserializeMetadata (metadata : JSObject) : JSObject :=
  omap (λ value, match value with
                 | JSUndefined => None
                 | JSString s => Some (JSString s)
                 end) metadata.

(** *** Decoding a buffer as UTF-8

    [Buffer.prototype.toString("utf-8")] belongs to the platform.  It is
    written out here as the WHATWG UTF-8 decoder without byte-order-mark
    handling: an ill-formed sequence becomes U+FFFD and the offending byte
    is read again as the start of a new sequence. *)

(** A decoded string, as its sequence of Unicode code points. *)
Abbreviation Text := (list N).

Module Utf8.
Local Open Scope N_scope.

Record State : Type := mkState {
  code_point : N;
  bytes_needed : nat;
  lower_boundary : N;
  upper_boundary : N
}.

Definition initial : State := mkState 0 0%nat 0x80 0xBF.

Definition replacement : N := 0xFFFD.

Definition between (lo hi b : N) : bool := (lo <=? b) && (b <=? hi).

(** A byte read when no sequence is open. *)
Definition lead (b : N) : State * Text :=
  if between 0x00 0x7F b then (initial, [b])
  else if between 0xC2 0xDF b then
    (mkState (N.land b 0x1F) 1%nat 0x80 0xBF, [])
  else if between 0xE0 0xEF b then
    (mkState (N.land b 0xF) 2%nat
             (if b =? 0xE0 then 0xA0 else 0x80)
             (if b =? 0xED then 0x9F else 0xBF), [])
  else if between 0xF0 0xF4 b then
    (mkState (N.land b 0x7) 3%nat
             (if b =? 0xF0 then 0x90 else 0x80)
             (if b =? 0xF4 then 0x8F else 0xBF), [])
  else (initial, [replacement]).

Definition step (st : State) (b : N) : State * Text :=
  match bytes_needed st with
  | O => lead b
  | S n =>
      if between (lower_boundary st) (upper_boundary st) b then
        let cp := N.lor (N.shiftl (code_point st) 6) (N.land b 0x3F) in
        match n with
        | O => (initial, [cp])
        | _ => (mkState cp n 0x80 0xBF, [])
        end
      else
        let '(st', out) := lead b in (st', replacement :: out)
  end.

Fixpoint run (st : State) (bs : list byte) : Text :=
  match bs with
  | [] => match bytes_needed st with O => [] | _ => [replacement] end
  | b :: bs' =>
      let '(st', out) := step st (Byte.to_N b) in out ++ run st' bs'
  end.

Definition decode (buf : list byte) : Text := run initial buf.

(** The encoding that [decode] reads back (RFC 3629): the bytes of a code
    point, for the code points that are Unicode scalar values. *)
Definition byte_of (n : N) : byte := default x00 (Byte.of_N n).

Definition encode_point (cp : N) : list byte :=
  if cp <? 0x80 then [byte_of cp]
  else if cp <? 0x800 then
    [byte_of (0xC0 + cp / 64); byte_of (0x80 + cp mod 64)]
  else if cp <? 0x10000 then
    [byte_of (0xE0 + cp / 4096);
     byte_of (0x80 + (cp / 64) mod 64);
     byte_of (0x80 + cp mod 64)]
  else
    [byte_of (0xF0 + cp / 262144);
     byte_of (0x80 + (cp / 4096) mod 64);
     byte_of (0x80 + (cp / 64) mod 64);
     byte_of (0x80 + cp mod 64)].

Definition scalar (cp : N) : bool :=
  (cp <? 0xD800) || ((0xDFFF <? cp) && (cp <? 0x110000)).

Definition encode (t : Text) : list byte := concat (map encode_point t).
End Utf8.

(** The string literal [s] of the source, for [s] in ASCII. *)
Definition text_of_string (s : string) : Text :=
  map Ascii.N_of_ascii (String.list_ascii_of_string s).

(** [streamToString]: every [data] chunk is pushed on [chunks]; [end]
    resolves with [Buffer.concat(chunks).toString("utf-8")], [error]
    rejects. *)
Definition streamToString {St} (stream : Readable) : Async St Text :=
  λ w,
    let chunks :=
      foldl (λ chunks chunk, chunks ++ [chunk]) [] (chunks stream) in
    match ending stream with
    | Ended => (Ok (Utf8.decode (concat chunks)), w)
    | Errored e => (Thrown e, w)
    end.

(** *** Blobs *)

(** [blob.size] and [blob.slice(start, end)] of the File API: negative
    indices count from the end, both are clamped to the blob, an empty span
    gives an empty blob. *)
Definition Blob_size (blob : Buffer) : Z := Z.of_nat (length blob).

Definition Blob_slice (blob : Buffer) (start end_ : Z) : Buffer :=
  let size := Blob_size blob in
  let relativeStart :=
    if start <? 0 then Z.max (size + start) 0 else Z.min start size in
  let relativeEnd :=
    if end_ <? 0 then Z.max (size + end_) 0 else Z.min end_ size in
  let span := Z.max (relativeEnd - relativeStart) 0 in
  take (Z.to_nat span) (drop (Z.to_nat relativeStart) blob).

(** The stream object that [blobToReadable] returns: the captured [blob]
    and [chunkSize], and the cursor [offset] that [read] advances. *)
Record BlobReadable : Type := mkBlobReadable {
  blob : Buffer;
  chunkSize : Z;
  offset : Z
}.

Definition blobToReadable (blob : Buffer) (chunkSize : option Z)
  : BlobReadable :=
  mkBlobReadable blob (default (1024 * 64) chunkSize) 0.

(** What one call of [read] hands to [this.push]. *)
Inductive Pushed : Type :=
  | PushChunk (chunk : Buffer)
  | PushNull.

Definition read (r : BlobReadable) : Pushed * BlobReadable :=
  if offset r >=? Blob_size (blob r) then (PushNull, r)
  else
    let end_ := Z.min (offset r + chunkSize r) (Blob_size (blob r)) in
    let chunk := Blob_slice (blob r) (offset r) end_ in
    (PushChunk chunk, mkBlobReadable (blob r) (chunkSize r) end_).

(** The consumer calls [read] until it is handed [null].  [drain n r] is
    the list of chunks seen when the end of the stream is reached within
    [n] calls, and [None] when it is not. *)
Fixpoint drain (fuel : nat) (r : BlobReadable) : option (list Buffer) :=
  match fuel with
  | O => None
  | S fuel' =>
      match read r with
      | (PushNull, _) => Some []
      | (PushChunk chunk, r') => cons chunk <$> drain fuel' r'
      end
  end.

(** ** src/bucket.ts *)

Record AWSS3BucketConfig : Type := mkConfig {
  (** [mergeMetadata?: (metadata1: M, metadata2: Partial<M>) => M] *)
  mergeMetadata : option (JSObject → JSObject → JSObject)
}.

Record AWSS3Bucket (St : Type) : Type := mkBucket {
  name : string;
  client : S3Client St;
  _config : AWSS3BucketConfig
}.
Arguments mkBucket {St} name client _config.
Arguments name {St} a.
Arguments client {St} a.
Arguments _config {St} a.

Section AWSS3Bucket.
Context {St : Type} (this : AWSS3Bucket St).

Definition getRaw (key : string) (input : option Keyed.Input)
  : Async St GetObject.Output :=
  let command :=
    GetObjectCommand
      (Keyed.spread (Keyed.mk (Some (name this)) (Some key) ∅)
                    (default Keyed.empty input)) in
  s3response ← client_send (client this) command;
  mret s3response.

(** [s3response.Body || null] *)
Definition get (key : string) : Async St (option Readable) :=
  s3response ← getRaw key None;
  mret (GetObject.Body s3response).

Definition getText (key : string) : Async St Text :=
  s3response ← getRaw key None;
  match GetObject.Body s3response with
  | None => mret (text_of_string "")
  | Some body => streamToString body
  end.

Definition deleteRaw (key : string) : Async St DeleteObject.Output :=
  let command :=
    DeleteObjectCommand (Keyed.mk (Some (name this)) (Some key) ∅) in
  client_send (client this) command.

Definition delete (key : string) : Async St DeleteObject.Output :=
  deleteRaw key.

Definition deleteManyRaw (del : DeleteObjects.Delete)
    (input : option DeleteObjects.Input) : Async St DeleteObjects.Output :=
  let command :=
    DeleteObjectsCommand
      (DeleteObjects.spread
         (DeleteObjects.mk (Some (name this)) (Some del) ∅)
         (default DeleteObjects.empty input)) in
  client_send (client this) command.

Definition deleteMany (keys : list string) : Async St DeleteObjects.Output :=
  deleteManyRaw
    (DeleteObjects.mkDelete (map (λ k, DeleteObjects.mkId k) keys)) None.

Definition copyRaw (oldKey newKey : string)
    (params : option CopyObject.Input) : Async St CopyObject.Output :=
  let cmd :=
    CopyObjectCommand
      (CopyObject.spread
         (CopyObject.mk (Some (name this))
                        (Some (name this +:+ "/" +:+ oldKey))
                        (Some newKey) None None ∅)
         (default CopyObject.empty params)) in
  client_send (client this) cmd.

Definition rename (oldKey newKey : string) : Async St unit :=
  if decide (oldKey = newKey) then mret ()
  else
    _ ← copyRaw oldKey newKey None;
    _ ← deleteRaw oldKey;
    mret ().

Definition getHeadRaw (key : string) (input : option Keyed.Input)
  : Async St HeadObject.Output :=
  let command :=
    HeadObjectCommand
      (Keyed.spread (Keyed.mk (Some (name this)) (Some key) ∅)
                    (default Keyed.empty input)) in
  client_send (client this) command.

(** [(s3response.Metadata as any) || {}] *)
Definition getHead (key : string) : Async St JSObject :=
  s3response ← getHeadRaw key None;
  mret (or_empty (HeadObject.Metadata s3response)).

(** The metadata object that [putHead] computes from what it read. *)
Definition newMetadata (currentMetadeata metadata : JSObject) : JSObject :=
  match mergeMetadata (_config this) with
  | Some merge => merge currentMetadeata metadata
  | None => spread currentMetadeata metadata
  end.

Definition putHead (key : string) (metadata : JSObject) : Async St unit :=
  currentMetadeata ← getHead key;
  _ ← copyRaw key key
        (Some (CopyObject.mk None None None (Some "REPLACE")
                 (Some (newMetadata currentMetadeata metadata)) ∅));
  mret ().

End AWSS3Bucket.

(** ** A reference backend

    An in-memory bucket that answers the commands the way the backend
    contract of the specification describes them, used to run the facade on
    concrete inputs.  A request fails when the fault script says so, and a
    failed request changes nothing in the bucket. *)

Record MemS3 : Type := mkMemS3 {
  bucket : string;
  objects : gmap string S3Object;
  (** fate of the coming requests, first to come first: [Some e] fails it *)
  faults : list (option Error)
}.

Fixpoint strip_prefix (p s : string) : option string :=
  match p, s with
  | EmptyString, _ => Some s
  | String a p', String b s' =>
      if decide (a = b) then strip_prefix p' s' else None
  | String _ _, EmptyString => None
  end.

(** The metadata headers a request carries: a property holding [undefined]
    is not sent. *)
Definition sent_metadata (m : JSObject) : gmap string string :=
  omap (λ v, match v with JSUndefined => None | JSString s => Some s end) m.

Definition received_metadata (m : gmap string string) : option JSObject :=
  if decide (m = ∅) then None else Some (JSString <$> m).

(** An empty payload is reported as no body at all. *)
Definition received_body (p : Buffer) : option Readable :=
  match p with
  | [] => None
  | _ => Some (mkReadable [p] Ended)
  end.

(** The object a request names, when it names one of this bucket. *)
Definition addressed (s : MemS3) (Bucket Key : option string)
  : Result string :=
  match Bucket, Key with
  | Some b, Some k =>
      if decide (b = bucket s) then Ok k else Thrown NotFound
  | _, _ => Thrown (BackendError "InvalidRequest")
  end.

Definition found (s : MemS3) (k : string) : Result S3Object :=
  match objects s !! k with
  | Some o => Ok o
  | None => Thrown NotFound
  end.

Definition with_objects (s : MemS3) (objs : gmap string S3Object) : MemS3 :=
  mkMemS3 (bucket s) objs (faults s).

Definition serve (c : Command) (s : MemS3) : Result (Output c) * MemS3 :=
  match c return Result (Output c) * MemS3 with
  | GetObjectCommand i =>
      match addressed s (Keyed.Bucket i) (Keyed.Key i) with
      | Thrown e => (Thrown e, s)
      | Ok k =>
          match found s k with
          | Thrown e => (Thrown e, s)
          | Ok o =>
              (Ok (GetObject.mkOutput
                     (received_body (payload o))
                     (received_metadata (metadata o))), s)
          end
      end
  | HeadObjectCommand i =>
      match addressed s (Keyed.Bucket i) (Keyed.Key i) with
      | Thrown e => (Thrown e, s)
      | Ok k =>
          match found s k with
          | Thrown e => (Thrown e, s)
          | Ok o =>
              (Ok (HeadObject.mkOutput (received_metadata (metadata o))), s)
          end
      end
  | DeleteObjectCommand i =>
      match addressed s (Keyed.Bucket i) (Keyed.Key i) with
      | Thrown e => (Thrown e, s)
      | Ok k =>
          (Ok (DeleteObject.mkOutput None),
           with_objects s (base.delete k (objects s)))
      end
  | DeleteObjectsCommand i =>
      match DeleteObjects.Bucket i, DeleteObjects.Delete_ i with
      | Some b, Some del =>
          if decide (b = bucket s) then
            let keys := map DeleteObjects.Key (DeleteObjects.Objects del) in
            (Ok (DeleteObjects.mkOutput keys),
             with_objects s
               (foldr (λ k objs, base.delete k objs) (objects s) keys))
          else (Thrown NotFound, s)
      | _, _ => (Thrown (BackendError "InvalidRequest"), s)
      end
  | CopyObjectCommand i =>
      match addressed s (CopyObject.Bucket i) (CopyObject.Key i) with
      | Thrown e => (Thrown e, s)
      | Ok newKey =>
          match CopyObject.CopySource i
                ≫= strip_prefix (bucket s +:+ "/") with
          | None => (Thrown (BackendError "InvalidRequest"), s)
          | Some oldKey =>
              match found s oldKey with
              | Thrown e => (Thrown e, s)
              | Ok o =>
                  let md :=
                    if decide (CopyObject.MetadataDirective i = Some "REPLACE")
                    then sent_metadata (default ∅ (CopyObject.Metadata i))
                    else metadata o in
                  (Ok (CopyObject.mkOutput None),
                   with_objects s
                     (<[newKey := mkObject (payload o) md]> (objects s)))
              end
          end
      end
  end.

Definition mem_send : S3Client MemS3 :=
  λ c s,
    match faults s with
    | Some e :: rest => (Thrown e, mkMemS3 (bucket s) (objects s) rest)
    | _ => serve c (mkMemS3 (bucket s) (objects s) (tail (faults s)))
    end.

(** ** The requests the facade builds *)

Section Requests.
Context {St : Type} (this : AWSS3Bucket St).

(** [{ Bucket: this.name, Key: key }] *)
Definition keyed (key : string) : Keyed.Input :=
  Keyed.mk (Some (name this)) (Some key) ∅.

(** The copy that [rename] asks for. *)
Definition copy_request (oldKey newKey : string) : Command :=
  CopyObjectCommand
    (CopyObject.mk (Some (name this)) (Some (name this +:+ "/" +:+ oldKey))
                   (Some newKey) None None ∅).

(** A copy of [key] onto itself that replaces the metadata by [md]. *)
Definition self_copy_request (key : string) (md : JSObject) : Command :=
  CopyObjectCommand
    (CopyObject.mk (Some (name this)) (Some (name this +:+ "/" +:+ key))
                   (Some key) (Some "REPLACE") (Some md) ∅).

(** One bulk delete naming [keys] in order. *)
Definition delete_many_request (keys : list string) : Command :=
  DeleteObjectsCommand
    (DeleteObjects.mk (Some (name this))
       (Some (DeleteObjects.mkDelete (map DeleteObjects.mkId keys))) ∅).
End Requests.

(** ** What the specification asks of a backend *)

Section BackendContract.
(** [view s] is the content of the bucket in the backend state [s]. *)
Context {St : Type} (client : S3Client St)
        (view : St → gmap string S3Object).

(** After a copy that succeeded the object is at the old key and its
    payload is at the new key too. *)
Definition copy_duplicates : Prop :=
  ∀ b oldKey newKey s r s',
    client (CopyObjectCommand
              (CopyObject.mk (Some b) (Some (b +:+ "/" +:+ oldKey))
                             (Some newKey) None None ∅)) s = (Ok r, s') →
    ∃ o, view s' !! oldKey = Some o ∧
         payload <$> view s' !! newKey = Some (payload o).

(** A request that failed changed nothing in the bucket. *)
Definition failure_keeps : Prop :=
  ∀ c s e s', client c s = (Thrown e, s') → view s' = view s.
End BackendContract.

(** ** The claims of the specification, in its own words *)

(** Default merge policy as the specification words it: a defined value of
    [B] wins, every other key of [A] keeps its value. *)
Definition overlay_dropping_undefined (A B R : JSObject) : Prop :=
  (∀ k v, B !! k = Some (JSString v) → js_get R k = JSString v) ∧
  (∀ k, is_Some (A !! k) → (∀ v, B !! k ≠ Some (JSString v)) →
        js_get R k = js_get A k).

(** [ceil(a / b)] for a positive [b]. *)
Definition ceil_div (a b : Z) : Z := (a + b - 1) / b.

(** The chunks of a blob of [size] bytes cut every [chunk] bytes: their
    number, the size of each, and the bytes in all. *)
Definition chunked_as_specified (size chunk : Z) (emitted : list Buffer)
  : Prop :=
  Z.of_nat (length emitted) = ceil_div size chunk ∧
  (∀ (i : nat) c, emitted !! i = Some c →
     Z.of_nat (length c) =
       if decide (S i = length emitted)
       then (if decide (size mod chunk = 0) then chunk else size mod chunk)
       else chunk) ∧
  Z.of_nat (length (concat emitted)) = size.

(** The stream of a blob as the specification words it: draining it ends,
    and what was seen is cut as specified. *)
Definition stream_as_specified (blob : Buffer) (chunk : Z) : Prop :=
  ∃ emitted,
    (∃ fuel, drain fuel (blobToReadable blob (Some chunk)) = Some emitted) ∧
    chunked_as_specified (Blob_size blob) chunk emitted.

(** The metadata a request carries, if it is a copy that carries any. *)
Definition carried_metadata (c : Command) : option JSObject :=
  match c with
  | CopyObjectCommand i => CopyObject.Metadata i
  | _ => None
  end.

(** The metadata carried by the [n]-th request of a log. *)
Definition carried_at (n : nat) (log : list Command) : option JSObject :=
  match log !! n with
  | Some c => carried_metadata c
  | None => None
  end.

(** [putHead] without a merge function, as the specification words it:
    after the head request, one self-copy whose metadata overlays the
    defined values of [B] on what was read. *)
Definition default_putHead_as_specified {St} (this : AWSS3Bucket St)
    (key : string) (B : JSObject) (w : World St) : Prop :=
  ∀ rsp s1,
    mergeMetadata (_config this) = None →
    client this (HeadObjectCommand (keyed this key)) (backend w)
      = (Ok rsp, s1) →
    ∃ R,
      requests (putHead this key B w).2 =
        requests w ++ [HeadObjectCommand (keyed this key);
                       self_copy_request this key R] ∧
      overlay_dropping_undefined (or_empty (HeadObject.Metadata rsp)) B R.

(** [putHead] with a merge function, as the specification words it: the
    function is given what was read and the update serialized to strings. *)
Definition merging_putHead_as_specified {St} (this : AWSS3Bucket St)
    (key : string) (B : JSObject) (w : World St) : Prop :=
  ∀ rsp s1 merge,
    mergeMetadata (_config this) = Some merge →
    client this (HeadObjectCommand (keyed this key)) (backend w)
      = (Ok rsp, s1) →
    requests (putHead this key B w).2 =
      requests w ++
        [HeadObjectCommand (keyed this key);
         self_copy_request this key
           (merge (or_empty (HeadObject.Metadata rsp))
                  (xserializeMetadata B))].

(** Validation as the specification words it: an empty key and an empty
    batch are refused with [ValidationError]. *)
Definition rejects_empty_input {St} (this : AWSS3Bucket St) (w : World St)
  : Prop :=
  (getRaw this "" None w).1 = Thrown ValidationError ∧
  (deleteMany this [] w).1 = Thrown ValidationError.

(** ** Concrete runs *)

(** A bucket facade without a merge function, on the reference backend. *)
Definition plain_bucket : AWSS3Bucket MemS3 :=
  mkBucket "media" mem_send (mkConfig None).

(** A merge function that keeps the update only. *)
Definition update_only (metadata1 metadata2 : JSObject) : JSObject :=
  metadata2.

Definition merging_bucket : AWSS3Bucket MemS3 :=
  mkBucket "media" mem_send (mkConfig (Some update_only)).

(** One object, whose payload is the two bytes of "hi". *)
Definition one_object : gmap string S3Object :=
  {[ "a.txt" := mkObject [x68; x69] {[ "owner" := "bob" ]} ]}.

Definition healthy : World MemS3 :=
  mkWorld (mkMemS3 "media" one_object []) [].

(** The first request is served, the second is refused. *)
Definition second_refused : World MemS3 :=
  mkWorld (mkMemS3 "media" one_object
             [None; Some (BackendError "AccessDenied")]) [].

(** The backend of [second_refused] once the copy of a.txt onto b.txt went
    through, and then once the next request was refused. *)
Definition after_copy : MemS3 :=
  mkMemS3 "media"
    (<["b.txt" := mkObject [x68; x69] {[ "owner" := "bob" ]}]> one_object)
    [Some (BackendError "AccessDenied")].

Definition after_refusal : MemS3 :=
  mkMemS3 "media"
    (<["b.txt" := mkObject [x68; x69] {[ "owner" := "bob" ]}]> one_object) [].

(** An update whose only property holds [undefined]. *)
Definition undefined_owner : JSObject := {[ "owner" := JSUndefined ]}.

Definition new_owner : JSObject := {[ "owner" := JSString "alice" ]}.

(** What the reference backend answers about a.txt. *)
Definition head_of_a : HeadObject.Output :=
  HeadObject.mkOutput (Some {[ "owner" := JSString "bob" ]}).

Definition body_of_a : GetObject.Output :=
  GetObject.mkOutput (Some (mkReadable [[x68; x69]] Ended))
                     (Some {[ "owner" := JSString "bob" ]}).

(** The backend of [healthy] once a.txt belongs to alice. *)
Definition relabelled : MemS3 :=
  mkMemS3 "media"
    {[ "a.txt" := mkObject [x68; x69] {[ "owner" := "alice" ]} ]} [].

(** Five bytes, to be cut every two. *)
Definition five_bytes : Buffer := [x00; x01; x02; x03; x04].

(** An object without payload and without metadata. *)
Definition bare_object : World MemS3 :=
  mkWorld (mkMemS3 "media" {[ "empty" := mkObject [] ∅ ]} []) [].

(** ** src/bucket.ts: put and getHeads

    [PutObjectCommand] and [ListObjectsCommand] are the two other commands
    that the class sends. *)

(** [ObjectData].  A [Readable] is either one given by its events or the
    stream that [blobToReadable] makes. *)
Inductive ObjectData : Type :=
  | DataString (s : string)
  | DataBuffer (b : Buffer)
  | DataUint8Array (b : Buffer)
  | DataReadable (r : Readable)
  | DataBlobReadable (r : BlobReadable)
  | DataArrayBuffer (b : Buffer)
  | DataBlob (b : Buffer).

Module PutObject.
Record Input : Type := mk {
  Bucket : option string;
  Key : option string;
  Body : option ObjectData;
  Other : gmap string string
}.
Definition empty : Input := mk None None None ∅.
Definition spread (a b : Input) : Input :=
  mk (Bucket b ∪ Bucket a) (Key b ∪ Key a) (Body b ∪ Body a)
     (Other b ∪ Other a).
Record Output : Type := mkOutput { ETag : option string }.
End PutObject.

Module ListObjects.
(** [_Object], an entry of a listing. *)
Record Entry : Type := mkEntry {
  Key : option string;
  Size : option Z
}.
Record Input : Type := mk {
  Bucket : option string;
  Prefix : option string;
  Marker : option string;
  MaxKeys : option Z;
  Other : gmap string string
}.
Definition empty : Input := mk None None None None ∅.
Definition spread (a b : Input) : Input :=
  mk (Bucket b ∪ Bucket a) (Prefix b ∪ Prefix a) (Marker b ∪ Marker a)
     (MaxKeys b ∪ MaxKeys a) (Other b ∪ Other a).
Record Output : Type := mkOutput {
  Contents : option (list Entry);
  IsTruncated : option bool;
  NextMarker : option string
}.
End ListObjects.

Record FetchHeadsOptions : Type := mkOptions {
  marker : option string;
  prefix : option string;
  limit : option Z
}.

(** [client.send(command)] for a command that [Command] does not list:
    [answer] is how the client answers that kind of command.  Such a
    request is not entered in [requests], which holds the commands of
    [Command] only. *)
Definition client_send_other {St I O : Type}
    (answer : I → St → Result O * St) (input : I) : Async St O :=
  λ w, let '(r, s') := answer input (backend w) in
       (r, mkWorld s' (requests w)).

Section AWSS3BucketPutAndList.
Context {St : Type} (this : AWSS3Bucket St).
(** How the client of [this] answers the two commands. *)
Context (send_PutObject :
           PutObject.Input → St → Result PutObject.Output * St).
Context (send_ListObjects :
           ListObjects.Input → St → Result ListObjects.Output * St).

Definition putRaw (key : string) (input : option PutObject.Input)
  : Async St PutObject.Output :=
  let command :=
    PutObject.spread (PutObject.mk (Some (name this)) (Some key) None ∅)
                     (default PutObject.empty input) in
  client_send_other send_PutObject command.

(** [Buffer.from(data)] of an [ArrayBuffer] has the same bytes. *)
Definition put (key : string) (data : ObjectData) : Async St unit :=
  let data :=
    match data with
    | DataArrayBuffer b => DataBuffer b
    | DataBlob b => DataBlobReadable (blobToReadable b None)
    | _ => data
    end in
  _ ← putRaw key (Some (PutObject.mk None None (Some data) ∅));
  mret ().

Definition getHeadsRaw (input : option ListObjects.Input)
  : Async St ListObjects.Output :=
  let command :=
    ListObjects.spread (ListObjects.mk (Some (name this)) None None None ∅)
                       (default ListObjects.empty input) in
  client_send_other send_ListObjects command.

(** [s3response.Contents || []]: an array is truthy even when empty. *)
Definition getHeads (options : option FetchHeadsOptions)
  : Async St (list ListObjects.Entry) :=
  let options := default (mkOptions None None None) options in
  s3response ←
    getHeadsRaw
      (Some (ListObjects.mk None (prefix options) (marker options)
                            (limit options) ∅));
  mret (default [] (ListObjects.Contents s3response)).

End AWSS3BucketPutAndList.

(** The bytes that the consumer of a body reads, when reading comes to an
    end within [fuel] reads of a blob stream: a string is sent in the bytes
    it is written in, a stream that fails delivers nothing. *)
Definition body_bytes (fuel : nat) (data : ObjectData) : option Buffer :=
  match data with
  | DataString s => Some (String.list_byte_of_string s)
  | DataBuffer b | DataUint8Array b | DataArrayBuffer b | DataBlob b => Some b
  | DataReadable r =>
      match ending r with
      | Ended => Some (concat (chunks r))
      | Errored _ => None
      end
  | DataBlobReadable r =>
      match drain fuel r with
      | Some emitted => Some (concat emitted)
      | None => None
      end
  end.

(** Reads that are enough for a body cut in chunks of at least a byte. *)
Definition reading_budget (data : ObjectData) : nat :=
  match data with
  | DataBlobReadable r => S (length (blob r))
  | _ => O
  end.

(** *** The reference backend, for these two commands *)

Definition mem_put (i : PutObject.Input) (s : MemS3)
  : Result PutObject.Output * MemS3 :=
  match faults s with
  | Some e :: rest => (Thrown e, mkMemS3 (bucket s) (objects s) rest)
  | _ =>
      let s := mkMemS3 (bucket s) (objects s) (tail (faults s)) in
      match addressed s (PutObject.Bucket i) (PutObject.Key i) with
      | Thrown e => (Thrown e, s)
      | Ok k =>
          match PutObject.Body i
                ≫= (λ data, body_bytes (reading_budget data) data) with
          | None => (Thrown (BackendError "IncompleteBody"), s)
          | Some bytes =>
              (Ok (PutObject.mkOutput None),
               with_objects s (<[k := mkObject bytes ∅]> (objects s)))
          end
      end
  end.

Definition mem_list (i : ListObjects.Input) (s : MemS3)
  : Result ListObjects.Output * MemS3 :=
  match faults s with
  | Some e :: rest => (Thrown e, mkMemS3 (bucket s) (objects s) rest)
  | _ =>
      let s := mkMemS3 (bucket s) (objects s) (tail (faults s)) in
      if decide (ListObjects.Bucket i = Some (bucket s)) then
        let listed (k : string) : bool :=
          String.prefix (default "" (ListObjects.Prefix i)) k
          && match ListObjects.Marker i with
             | Some m => String.ltb m k
             | None => true
             end in
        let matching :=
          filter (λ e, listed (default "" (ListObjects.Key e)) = true)
                 ((λ ko, ListObjects.mkEntry
                           (Some ko.1)
                           (Some (Z.of_nat (length (payload ko.2)))))
                    <$> map_to_list (objects s)) in
        let page :=
          Z.to_nat (Z.min 1000 (default 1000 (ListObjects.MaxKeys i))) in
        (Ok (ListObjects.mkOutput
               (match matching with
                | [] => None
                | _ => Some (take page matching)
                end)
               (Some (bool_decide (page < length matching)%nat))
               None), s)
      else (Thrown NotFound, s)
  end.

(** ** More of what the specification asks of a backend *)

Section BackendContractDelete.
Context {St : Type} (client : S3Client St)
        (view : St → gmap string S3Object).

(** A delete that succeeded removed the object named and nothing else. *)
Definition delete_removes : Prop :=
  ∀ b k s r s',
    client (DeleteObjectCommand (Keyed.mk (Some b) (Some k) ∅)) s
      = (Ok r, s') →
    view s' = base.delete k (view s).
End BackendContractDelete.

(** ** The requests of the raw methods *)

Section RawRequests.
Context {St : Type} (this : AWSS3Bucket St).


End RawRequests.

(** ** More concrete runs *)

(** The two bytes of U+00E9, one per chunk, and in one chunk. *)
Definition e_acute_split : Readable := mkReadable [[xc3]; [xa9]] Ended.
Definition e_acute_whole : Readable := mkReadable [[xc3; xa9]] Ended.

(** A stream that fails after its first chunk. *)
Definition broken_body : GetObject.Output :=
  GetObject.mkOutput
    (Some (mkReadable [[x68]] (Errored (BackendError "ECONNRESET")))) None.

(** A client that answers every get with [broken_body], and the other
    commands like the reference backend. *)
Definition breaking_send : S3Client MemS3 :=
  λ c,
    match c return MemS3 → Result (Output c) * MemS3 with
    | GetObjectCommand _ => λ s, (Ok broken_body, s)
    | c' => mem_send c'
    end.

Definition breaking_bucket : AWSS3Bucket MemS3 :=
  mkBucket "media" breaking_send (mkConfig None).




(** The backend of [healthy] once a.txt was renamed to b.txt. *)
Definition renamed : MemS3 :=
  mkMemS3 "media"
    {[ "b.txt" := mkObject [x68; x69] {[ "owner" := "bob" ]} ]} [].

(** The backend of [healthy] once the five bytes were put at c.bin. *)
Definition with_five_bytes : MemS3 :=
  mkMemS3 "media" (<["c.bin" := mkObject five_bytes ∅]> one_object) [].

(** ** The monad and the client *)

Section AsyncFacts.
Context {St : Type}.

Lemma await_Ok {A B} (m : Async St A) (k : A → Async St B) w a w' :
  m w = (Ok a, w') → (m ≫= k) w = k a w'.
Proof. intros H. unfold mbind, Async_bind. by rewrite H. Qed.

Lemma await_Thrown {A B} (m : Async St A) (k : A → Async St B) w e w' :
  m w = (Thrown e, w') → (m ≫= k) w = (Thrown e, w').
Proof. intros H. unfold mbind, Async_bind. by rewrite H. Qed.

Lemma client_send_answer (client : S3Client St) c w r s' :
  client c (backend w) = (r, s') →
  client_send client c w = (r, mkWorld s' (requests w ++ [c])).
Proof. intros H. unfold client_send. by rewrite H. Qed.
End AsyncFacts.

Lemma Keyed_spread_empty a : Keyed.spread a Keyed.empty = a.
Proof.
  destruct a as [b k o]. unfold Keyed.spread, Keyed.empty; simpl.
  f_equal; [by destruct b | by destruct k | apply (left_id_L ∅ (∪))].
Qed.

Lemma CopyObject_spread_empty a : CopyObject.spread a CopyObject.empty = a.
Proof.
  destruct a as [b c k d m o].
  unfold CopyObject.spread, CopyObject.empty; simpl.
  f_equal; try (by destruct b); try (by destruct c); try (by destruct k);
    try (by destruct d); try (by destruct m); apply (left_id_L ∅ (∪)).
Qed.

Lemma DeleteObjects_spread_empty a :
  DeleteObjects.spread a DeleteObjects.empty = a.
Proof.
  destruct a as [b d o].
  unfold DeleteObjects.spread, DeleteObjects.empty; simpl.
  f_equal; [by destruct b | by destruct d | apply (left_id_L ∅ (∪))].
Qed.

(** ** Single requests *)

Section SingleRequests.
Context {St : Type} (this : AWSS3Bucket St).

Lemma getRaw_answer key w r s1 :
  client this (GetObjectCommand (keyed this key)) (backend w) = (r, s1) →
  getRaw this key None w =
    (r, mkWorld s1 (requests w ++ [GetObjectCommand (keyed this key)])).
Proof.
  intros H. unfold getRaw; simpl. rewrite Keyed_spread_empty.
  fold (keyed this key).
  pose proof (client_send_answer (client this) _ _ _ _ H) as Hs.
  destruct r as [a|e].
  - by rewrite (await_Ok _ _ _ _ _ Hs).
  - by rewrite (await_Thrown _ _ _ _ _ Hs).
Qed.

Lemma getHeadRaw_answer key w r s1 :
  client this (HeadObjectCommand (keyed this key)) (backend w) = (r, s1) →
  getHeadRaw this key None w =
    (r, mkWorld s1 (requests w ++ [HeadObjectCommand (keyed this key)])).
Proof.
  intros H. unfold getHeadRaw; simpl. rewrite Keyed_spread_empty.
  exact (client_send_answer (client this) _ _ _ _ H).
Qed.

Lemma deleteRaw_answer key w r s1 :
  client this (DeleteObjectCommand (keyed this key)) (backend w) = (r, s1) →
  deleteRaw this key w =
    (r, mkWorld s1 (requests w ++ [DeleteObjectCommand (keyed this key)])).
Proof.
  intros H. unfold deleteRaw.
  exact (client_send_answer (client this) _ _ _ _ H).
Qed.

Lemma copyRaw_answer oldKey newKey w r s1 :
  client this (copy_request this oldKey newKey) (backend w) = (r, s1) →
  copyRaw this oldKey newKey None w =
    (r, mkWorld s1 (requests w ++ [copy_request this oldKey newKey])).
Proof.
  intros H. unfold copyRaw; simpl. rewrite CopyObject_spread_empty.
  exact (client_send_answer (client this) _ _ _ _ H).
Qed.

Lemma copyRaw_replace_answer key md w r s1 :
  client this (self_copy_request this key md) (backend w) = (r, s1) →
  copyRaw this key key
    (Some (CopyObject.mk None None None (Some "REPLACE") (Some md) ∅)) w =
    (r, mkWorld s1 (requests w ++ [self_copy_request this key md])).
Proof.
  intros H. unfold copyRaw, CopyObject.spread; simpl.
  rewrite (left_id_L ∅ (∪)).
  exact (client_send_answer (client this) _ _ _ _ H).
Qed.

Lemma deleteMany_answer keys w r s1 :
  client this (delete_many_request this keys) (backend w) = (r, s1) →
  deleteMany this keys w =
    (r, mkWorld s1 (requests w ++ [delete_many_request this keys])).
Proof.
  intros H. unfold deleteMany, deleteManyRaw; simpl.
  rewrite DeleteObjects_spread_empty.
  exact (client_send_answer (client this) _ _ _ _ H).
Qed.

Lemma getHead_answer key w rsp s1 :
  client this (HeadObjectCommand (keyed this key)) (backend w)
    = (Ok rsp, s1) →
  getHead this key w =
    (Ok (or_empty (HeadObject.Metadata rsp)),
     mkWorld s1 (requests w ++ [HeadObjectCommand (keyed this key)])).
Proof.
  intros H. unfold getHead.
  by rewrite (await_Ok _ _ _ _ _ (getHeadRaw_answer _ _ _ _ H)).
Qed.

Lemma getHead_failure key w e s1 :
  client this (HeadObjectCommand (keyed this key)) (backend w)
    = (Thrown e, s1) →
  getHead this key w =
    (Thrown e,
     mkWorld s1 (requests w ++ [HeadObjectCommand (keyed this key)])).
Proof.
  intros H. unfold getHead.
  by rewrite (await_Thrown _ _ _ _ _ (getHeadRaw_answer _ _ _ _ H)).
Qed.
End SingleRequests.

(** ** The reference backend honours the contract *)

Lemma strip_prefix_app p s : strip_prefix p (p +:+ s) = Some s.
Proof.
  induction p as [|a p IH]; simpl; [by destruct s|].
  by rewrite decide_True.
Qed.

Lemma strip_prefix_app_app p q s :
  strip_prefix (p +:+ q) (p +:+ q +:+ s) = Some s.
Proof.
  induction p as [|a p IH]; [exact (strip_prefix_app q s)|].
  simpl. by rewrite decide_True.
Qed.

Lemma serve_failure_keeps_objects c s e s' :
  serve c s = (Thrown e, s') → s' = s.
Proof.
  destruct c as [i|i|i|i|i]; simpl; intros H;
    repeat match type of H with
           | context [match ?x with _ => _ end] => destruct x; simpl in H
           end;
    congruence.
Qed.

Lemma mem_send_failure_keeps_objects c s e s' :
  mem_send c s = (Thrown e, s') → objects s' = objects s.
Proof.
  unfold mem_send. intros H.
  destruct (faults s) as [|[e'|] rest].
  - by apply serve_failure_keeps_objects in H as ->.
  - by inversion H.
  - by apply serve_failure_keeps_objects in H as ->.
Qed.

Lemma mem_failure_keeps : failure_keeps mem_send objects.
Proof. intros c s e s' H. exact (mem_send_failure_keeps_objects _ _ _ _ H). Qed.

Lemma serve_copy_duplicates b oldKey newKey s r s' :
  serve (CopyObjectCommand
           (CopyObject.mk (Some b) (Some (b +:+ "/" +:+ oldKey))
                          (Some newKey) None None ∅)) s = (Ok r, s') →
  ∃ o, objects s' !! oldKey = Some o ∧
       payload <$> objects s' !! newKey = Some (payload o).
Proof.
  simpl. destruct (decide (b = bucket s)) as [->|]; simpl; [|done].
  rewrite strip_prefix_app_app. unfold found.
  destruct (objects s !! oldKey) as [o|] eqn:Ho; [|done].
  intros [= _ <-]. simpl.
  destruct (decide (newKey = oldKey)) as [->|Hne].
  - eexists. rewrite lookup_insert_eq. split; [reflexivity|done].
  - exists o. rewrite lookup_insert_ne by done.
    rewrite lookup_insert_eq. by split.
Qed.

Lemma mem_copy_duplicates : copy_duplicates mem_send objects.
Proof.
  intros b oldKey newKey s r s'. unfold mem_send.
  destruct (faults s) as [|[e'|] rest]; [|done|];
    intros H; apply serve_copy_duplicates in H; exact H.
Qed.

(** ** rename *)

Section Rename.
Context {St : Type} (this : AWSS3Bucket St).

(** C6. [rename(k, k)] returns at once: the promise resolves, no request
    reaches the backend and the world is the one it started in. *)
Theorem rename_same_key_is_noop (k : string) (w : World St) :
  rename this k k w = (Ok (), w).
Proof. unfold rename. by rewrite decide_True. Qed.

(** C9. For distinct keys, when the copy is rejected the rejection is
    what the caller gets, the copy is the only request that was sent (no
    delete follows) and the backend is left as the failed copy left it: on
    a backend where a failed request changes nothing, the bucket is what it
    was. *)
Theorem rename_copy_failure_skips_delete
    (view : St → gmap string S3Object)
    (a b : string) (w : World St) (e : Error) (s1 : St) :
  a ≠ b →
  client this (copy_request this a b) (backend w) = (Thrown e, s1) →
  rename this a b w =
    (Thrown e, mkWorld s1 (requests w ++ [copy_request this a b])) ∧
  (failure_keeps (client this) view →
   view (backend (rename this a b w).2) = view (backend w)).
Proof.
  intros Hne Hcopy. unfold rename. rewrite decide_False by done.
  rewrite (await_Thrown _ _ _ _ _ (copyRaw_answer _ _ _ _ _ _ Hcopy)).
  split; [done|]. intros Hkeep. simpl. by eapply Hkeep.
Qed.

(** C3. For distinct keys, when the copy succeeds exactly two requests
    are sent, the copy and then the delete of the old key, and the caller
    gets the outcome of the delete.  When the delete fails its error is
    what the caller observes, and on any backend where a successful copy
    leaves the object at the old key and its payload at the new key, and
    where a failed request changes nothing, the object is still at [a] and
    its payload is at [b] too. *)
Theorem rename_copy_then_delete
    (view : St → gmap string S3Object) (a b : string) (w : World St)
    (r : CopyObject.Output) (s1 : St)
    (d : Result DeleteObject.Output) (s2 : St) :
  a ≠ b →
  client this (copy_request this a b) (backend w) = (Ok r, s1) →
  client this (DeleteObjectCommand (keyed this a)) s1 = (d, s2) →
  requests (rename this a b w).2 =
    requests w ++ [copy_request this a b;
                   DeleteObjectCommand (keyed this a)] ∧
  backend (rename this a b w).2 = s2 ∧
  match d with
  | Ok _ => (rename this a b w).1 = Ok ()
  | Thrown e =>
      (rename this a b w).1 = Thrown e ∧
      (copy_duplicates (client this) view →
       failure_keeps (client this) view →
       ∃ o, view s2 !! a = Some o ∧
            payload <$> view s2 !! b = Some (payload o))
  end.
Proof.
  intros Hne Hcopy Hdel. unfold rename.
  rewrite decide_False by done.
  rewrite (await_Ok _ _ _ _ _ (copyRaw_answer _ _ _ _ _ _ Hcopy)).
  pose proof (deleteRaw_answer this a
                (mkWorld s1 (requests w ++ [copy_request this a b]))
                d s2 Hdel) as Hd.
  simpl in Hd. rewrite <- (assoc_L (++)) in Hd. simpl in Hd.
  destruct d as [o|e].
  - rewrite (await_Ok _ _ _ _ _ Hd). by simpl.
  - rewrite (await_Thrown _ _ _ _ _ Hd). simpl.
    repeat split; try done. intros Hdup Hkeep.
    rewrite (Hkeep _ _ _ _ Hdel). exact (Hdup _ _ _ _ _ _ Hcopy).
Qed.
End Rename.

(** Witness of C9: renaming a key that is not there. *)
Lemma rename_copy_failure_skips_delete_witness :
  "missing" ≠ "b.txt" ∧
  client plain_bucket (copy_request plain_bucket "missing" "b.txt")
    (backend healthy) = (Thrown NotFound, backend healthy) ∧
  rename plain_bucket "missing" "b.txt" healthy =
    (Thrown NotFound,
     mkWorld (backend healthy)
       (requests healthy ++ [copy_request plain_bucket "missing" "b.txt"])) ∧
  objects (backend (rename plain_bucket "missing" "b.txt" healthy).2)
    = objects (backend healthy).
Proof.
  assert (Hne : "missing" ≠ "b.txt") by discriminate.
  assert (Hcopy : client plain_bucket
                    (copy_request plain_bucket "missing" "b.txt")
                    (backend healthy) = (Thrown NotFound, backend healthy))
    by (vm_compute; reflexivity).
  destruct (rename_copy_failure_skips_delete plain_bucket objects
              "missing" "b.txt" healthy NotFound (backend healthy) Hne Hcopy)
    as [Hrun Hkept].
  exact (conj Hne (conj Hcopy (conj Hrun (Hkept mem_failure_keeps)))).
Defined.

(** Witness of C3: the delete is refused after the copy went through. *)
Lemma rename_copy_then_delete_witness :
  "a.txt" ≠ "b.txt" ∧
  client plain_bucket (copy_request plain_bucket "a.txt" "b.txt")
    (backend second_refused) = (Ok (CopyObject.mkOutput None), after_copy) ∧
  client plain_bucket (DeleteObjectCommand (keyed plain_bucket "a.txt"))
    after_copy = (Thrown (BackendError "AccessDenied"), after_refusal) ∧
  requests (rename plain_bucket "a.txt" "b.txt" second_refused).2 =
    [copy_request plain_bucket "a.txt" "b.txt";
     DeleteObjectCommand (keyed plain_bucket "a.txt")] ∧
  (rename plain_bucket "a.txt" "b.txt" second_refused).1
    = Thrown (BackendError "AccessDenied") ∧
  ∃ o, objects after_refusal !! "a.txt" = Some o ∧
       payload <$> objects after_refusal !! "b.txt" = Some (payload o).
Proof.
  assert (Hne : "a.txt" ≠ "b.txt") by discriminate.
  assert (Hcopy : client plain_bucket
                    (copy_request plain_bucket "a.txt" "b.txt")
                    (backend second_refused)
                  = (Ok (CopyObject.mkOutput None), after_copy))
    by (vm_compute; reflexivity).
  assert (Hdel : client plain_bucket
                   (DeleteObjectCommand (keyed plain_bucket "a.txt"))
                   after_copy
                 = (Thrown (BackendError "AccessDenied"), after_refusal))
    by (vm_compute; reflexivity).
  destruct (rename_copy_then_delete plain_bucket objects "a.txt" "b.txt"
              second_refused _ _ _ _ Hne Hcopy Hdel)
    as (Hreq & _ & Hres & Hboth).
  exact (conj Hne (conj Hcopy (conj Hdel (conj Hreq
           (conj Hres (Hboth mem_copy_duplicates mem_failure_keeps)))))).
Defined.

(** ** getHead and putHead *)

Section Head.
Context {St : Type} (this : AWSS3Bucket St).

(** A run of [putHead] whose head request is answered. *)
Lemma putHead_run key md w rsp s1 r s2 :
  client this (HeadObjectCommand (keyed this key)) (backend w)
    = (Ok rsp, s1) →
  client this
    (self_copy_request this key
       (newMetadata this (or_empty (HeadObject.Metadata rsp)) md)) s1
    = (r, s2) →
  putHead this key md w =
    (match r with Ok _ => Ok () | Thrown e => Thrown e end,
     mkWorld s2
       (requests w ++
          [HeadObjectCommand (keyed this key);
           self_copy_request this key
             (newMetadata this (or_empty (HeadObject.Metadata rsp)) md)])).
Proof.
  intros Hhead Hcopy. unfold putHead.
  rewrite (await_Ok _ _ _ _ _ (getHead_answer _ _ _ _ _ Hhead)).
  pose proof (copyRaw_replace_answer this key _
                (mkWorld s1
                   (requests w ++ [HeadObjectCommand (keyed this key)]))
                r s2 Hcopy) as Hc.
  simpl in Hc. rewrite <- (assoc_L (++)) in Hc. simpl in Hc.
  destruct r as [o|e].
  - by rewrite (await_Ok _ _ _ _ _ Hc).
  - by rewrite (await_Thrown _ _ _ _ _ Hc).
Qed.

Lemma putHead_requests key md w rsp s1 :
  client this (HeadObjectCommand (keyed this key)) (backend w)
    = (Ok rsp, s1) →
  requests (putHead this key md w).2 =
    requests w ++
      [HeadObjectCommand (keyed this key);
       self_copy_request this key
         (newMetadata this (or_empty (HeadObject.Metadata rsp)) md)].
Proof.
  intros Hhead.
  destruct (client this
              (self_copy_request this key
                 (newMetadata this (or_empty (HeadObject.Metadata rsp)) md))
              s1) as [r s2] eqn:Hcopy.
  by rewrite (putHead_run _ _ _ _ _ _ _ Hhead Hcopy).
Qed.

Lemma lookup_spread (A B : JSObject) k :
  spread A B !! k = match B !! k with Some v => Some v | None => A !! k end.
Proof.
  unfold spread, Object_assign. rewrite (right_id_L ∅ (∪)).
  rewrite lookup_union. destruct (B !! k), (A !! k); done.
Qed.

(** C8. When the head request of a key is answered, [getHead] resolves
    with the metadata of the answer, and with the empty object when the
    answer carries none; what it resolves with is always an object. *)
Theorem getHead_returns_metadata_or_empty
    (key : string) (w : World St) (rsp : HeadObject.Output) (s1 : St) :
  client this (HeadObjectCommand (keyed this key)) (backend w)
    = (Ok rsp, s1) →
  (∃ m : JSObject, (getHead this key w).1 = Ok m) ∧
  (∀ m, HeadObject.Metadata rsp = Some m →
        (getHead this key w).1 = Ok m) ∧
  (HeadObject.Metadata rsp = None → (getHead this key w).1 = Ok ∅).
Proof.
  intros Hhead. rewrite (getHead_answer _ _ _ _ _ Hhead). simpl.
  split; [eauto|]. split.
  - by intros m ->.
  - by intros ->.
Qed.

(** C10. When the head request inside [putHead] is rejected, the caller
    gets that rejection, the head request is the only request that was
    sent (no copy follows) and the backend is left as the failed read
    left it: on a backend where a failed request changes nothing, every
    object and its metadata are what they were. *)
Theorem putHead_head_failure_skips_copy
    (view : St → gmap string S3Object)
    (key : string) (md : JSObject) (w : World St) (e : Error) (s1 : St) :
  client this (HeadObjectCommand (keyed this key)) (backend w)
    = (Thrown e, s1) →
  putHead this key md w =
    (Thrown e,
     mkWorld s1 (requests w ++ [HeadObjectCommand (keyed this key)])) ∧
  (failure_keeps (client this) view →
   view (backend (putHead this key md w).2) = view (backend w)).
Proof.
  intros Hhead. unfold putHead.
  rewrite (await_Thrown _ _ _ _ _ (getHead_failure _ _ _ _ _ Hhead)).
  split; [done|]. intros Hkeep. simpl. by eapply Hkeep.
Qed.

(** C2, amended. When the head request is answered, [putHead] sends
    exactly two requests: the head request, then one copy of the key onto
    itself with the directive REPLACE and the computed object as
    metadata; the caller gets the outcome of the copy.  With a merge
    function configured the computed object is the function's result on
    what was read and on the update exactly as it was passed in. *)
Theorem putHead_reads_merges_then_self_copies
    (key : string) (md : JSObject) (w : World St)
    (rsp : HeadObject.Output) (s1 : St)
    (r : Result CopyObject.Output) (s2 : St) :
  client this (HeadObjectCommand (keyed this key)) (backend w)
    = (Ok rsp, s1) →
  client this
    (self_copy_request this key
       (newMetadata this (or_empty (HeadObject.Metadata rsp)) md)) s1
    = (r, s2) →
  putHead this key md w =
    (match r with Ok _ => Ok () | Thrown e => Thrown e end,
     mkWorld s2
       (requests w ++
          [HeadObjectCommand (keyed this key);
           self_copy_request this key
             (newMetadata this (or_empty (HeadObject.Metadata rsp)) md)])) ∧
  (∀ merge, mergeMetadata (_config this) = Some merge →
            newMetadata this (or_empty (HeadObject.Metadata rsp)) md
            = merge (or_empty (HeadObject.Metadata rsp)) md).
Proof.
  intros Hhead Hcopy. split.
  - exact (putHead_run _ _ _ _ _ _ _ Hhead Hcopy).
  - intros merge Hm. unfold newMetadata. by rewrite Hm.
Qed.

(** C1, amended. Without a merge function, when the head request is
    answered with metadata [A] (the empty object when the answer carries
    none), the copy that [putHead] sends carries an object [R] with
    [R !! k = B !! k] for every key present in [B], a key holding
    [undefined] included, and [R !! k = A !! k] for every key absent
    from [B]. *)
Theorem putHead_default_overlays_present_keys
    (key : string) (B : JSObject) (w : World St)
    (rsp : HeadObject.Output) (s1 : St) :
  mergeMetadata (_config this) = None →
  client this (HeadObjectCommand (keyed this key)) (backend w)
    = (Ok rsp, s1) →
  ∃ R : JSObject,
    requests (putHead this key B w).2 =
      requests w ++ [HeadObjectCommand (keyed this key);
                     self_copy_request this key R] ∧
    (∀ k v, B !! k = Some v → R !! k = Some v) ∧
    (∀ k, B !! k = None →
          R !! k = or_empty (HeadObject.Metadata rsp) !! k).
Proof.
  intros Hnone Hhead.
  exists (spread (or_empty (HeadObject.Metadata rsp)) B). split; [|split].
  - rewrite (putHead_requests _ _ _ _ _ Hhead).
    unfold newMetadata. by rewrite Hnone.
  - intros k v Hk. by rewrite lookup_spread, Hk.
  - intros k Hk. by rewrite lookup_spread, Hk.
Qed.
End Head.

(** Facts about the concrete runs. *)
Lemma head_of_a_answer (b : AWSS3Bucket MemS3) :
  name b = "media" → client b = mem_send →
  client b (HeadObjectCommand (keyed b "a.txt")) (backend healthy)
    = (Ok head_of_a, backend healthy).
Proof.
  destruct b as [n c cfg]; simpl. intros -> ->. vm_compute. reflexivity.
Qed.

(** Witness of C8. *)
Lemma getHead_returns_metadata_or_empty_witness :
  client plain_bucket (HeadObjectCommand (keyed plain_bucket "a.txt"))
    (backend healthy) = (Ok head_of_a, backend healthy) ∧
  (getHead plain_bucket "a.txt" healthy).1
    = Ok ({[ "owner" := JSString "bob" ]} : JSObject).
Proof.
  assert (Hhead : client plain_bucket
                    (HeadObjectCommand (keyed plain_bucket "a.txt"))
                    (backend healthy) = (Ok head_of_a, backend healthy))
    by (vm_compute; reflexivity).
  split; [exact Hhead|].
  exact (proj1 (proj2 (getHead_returns_metadata_or_empty plain_bucket "a.txt"
                         healthy head_of_a (backend healthy) Hhead))
           _ eq_refl).
Defined.

(** Witness of C10: the key is not there. *)
Lemma putHead_head_failure_skips_copy_witness :
  client plain_bucket (HeadObjectCommand (keyed plain_bucket "missing"))
    (backend healthy) = (Thrown NotFound, backend healthy) ∧
  putHead plain_bucket "missing" new_owner healthy =
    (Thrown NotFound,
     mkWorld (backend healthy)
       (requests healthy
          ++ [HeadObjectCommand (keyed plain_bucket "missing")])) ∧
  objects (backend (putHead plain_bucket "missing" new_owner healthy).2)
    = objects (backend healthy).
Proof.
  assert (Hhead : client plain_bucket
                    (HeadObjectCommand (keyed plain_bucket "missing"))
                    (backend healthy) = (Thrown NotFound, backend healthy))
    by (vm_compute; reflexivity).
  destruct (putHead_head_failure_skips_copy plain_bucket objects "missing"
              new_owner healthy NotFound (backend healthy) Hhead)
    as [Hrun Hkept].
  exact (conj Hhead (conj Hrun (Hkept mem_failure_keeps))).
Defined.

(** Witness of C2: a.txt changes owner through the merge function. *)
Lemma putHead_reads_merges_then_self_copies_witness :
  client merging_bucket (HeadObjectCommand (keyed merging_bucket "a.txt"))
    (backend healthy) = (Ok head_of_a, backend healthy) ∧
  client merging_bucket
    (self_copy_request merging_bucket "a.txt"
       (newMetadata merging_bucket (or_empty (HeadObject.Metadata head_of_a))
                    new_owner))
    (backend healthy) = (Ok (CopyObject.mkOutput None), relabelled) ∧
  putHead merging_bucket "a.txt" new_owner healthy =
    (Ok (),
     mkWorld relabelled
       (requests healthy ++
          [HeadObjectCommand (keyed merging_bucket "a.txt");
           self_copy_request merging_bucket "a.txt"
             (newMetadata merging_bucket
                (or_empty (HeadObject.Metadata head_of_a)) new_owner)])).
Proof.
  assert (Hhead : client merging_bucket
                    (HeadObjectCommand (keyed merging_bucket "a.txt"))
                    (backend healthy) = (Ok head_of_a, backend healthy))
    by (vm_compute; reflexivity).
  assert (Hcopy : client merging_bucket
                    (self_copy_request merging_bucket "a.txt"
                       (newMetadata merging_bucket
                          (or_empty (HeadObject.Metadata head_of_a))
                          new_owner))
                    (backend healthy)
                  = (Ok (CopyObject.mkOutput None), relabelled))
    by (vm_compute; reflexivity).
  split; [exact Hhead|]. split; [exact Hcopy|].
  exact (proj1 (putHead_reads_merges_then_self_copies merging_bucket "a.txt"
                  new_owner healthy head_of_a (backend healthy)
                  (Ok (CopyObject.mkOutput None)) relabelled Hhead Hcopy)).
Defined.

(** Counterexample to C2 as stated: the merge function is handed the update
    as it came in, with its [undefined] property, not its serialization. *)
Lemma putHead_merge_gets_raw_update :
  ¬ merging_putHead_as_specified merging_bucket "a.txt" undefined_owner
      healthy.
Proof.
  intros H.
  specialize (H head_of_a (backend healthy) update_only eq_refl
                (head_of_a_answer merging_bucket eq_refl eq_refl)).
  rewrite (putHead_requests merging_bucket _ _ _ _ _
             (head_of_a_answer merging_bucket eq_refl eq_refl)) in H.
  apply (f_equal (carried_at 1)) in H.
  apply (f_equal (λ m : option JSObject, js_has (or_empty m) "owner")) in H.
  vm_compute in H. discriminate H.
Qed.

(** Witness of C1: the update names the owner and nothing else. *)
Lemma putHead_default_overlays_present_keys_witness :
  mergeMetadata (_config plain_bucket) = None ∧
  client plain_bucket (HeadObjectCommand (keyed plain_bucket "a.txt"))
    (backend healthy) = (Ok head_of_a, backend healthy) ∧
  ∃ R : JSObject,
    requests (putHead plain_bucket "a.txt" new_owner healthy).2 =
      requests healthy
        ++ [HeadObjectCommand (keyed plain_bucket "a.txt");
            self_copy_request plain_bucket "a.txt" R] ∧
    (∀ k v, new_owner !! k = Some v → R !! k = Some v) ∧
    (∀ k, new_owner !! k = None →
          R !! k = or_empty (HeadObject.Metadata head_of_a) !! k).
Proof.
  assert (Hhead : client plain_bucket
                    (HeadObjectCommand (keyed plain_bucket "a.txt"))
                    (backend healthy) = (Ok head_of_a, backend healthy))
    by (vm_compute; reflexivity).
  split; [reflexivity|]. split; [exact Hhead|].
  exact (putHead_default_overlays_present_keys plain_bucket "a.txt" new_owner
           healthy head_of_a (backend healthy) eq_refl Hhead).
Defined.

(** Counterexample to C1 as stated: a.txt has owner bob and the update
    holds [undefined] under owner; the copy carries owner with value
    [undefined], so that reading owner no longer gives bob. *)
Lemma putHead_default_undefined_overrides :
  ¬ default_putHead_as_specified plain_bucket "a.txt" undefined_owner healthy.
Proof.
  intros H.
  destruct (H head_of_a (backend healthy) eq_refl
              (head_of_a_answer plain_bucket eq_refl eq_refl))
    as (R & Hreq & _ & Hkeep).
  rewrite (putHead_requests plain_bucket _ _ _ _ _
             (head_of_a_answer plain_bucket eq_refl eq_refl)) in Hreq.
  apply (f_equal (carried_at 1)) in Hreq.
  simpl in Hreq. injection Hreq as <-.
  specialize (Hkeep "owner").
  assert (Hin : is_Some (or_empty (HeadObject.Metadata head_of_a) !! "owner"))
    by (vm_compute; eauto).
  assert (Hundef : ∀ v, undefined_owner !! "owner" ≠ Some (JSString v))
    by (intros v; vm_compute; discriminate).
  specialize (Hkeep Hin Hundef).
  vm_compute in Hkeep. discriminate Hkeep.
Qed.

(** ** Keys and batches are not validated *)

Section Forwarding.
Context {St : Type} (this : AWSS3Bucket St).

(** C5, amended. The facade validates nothing: for every key, the empty
    key included, [getRaw] sends one get request naming that key and
    settles as the backend answered it; for every batch, the empty batch
    included, [deleteMany] sends one bulk delete naming the keys of the
    batch in order and settles as the backend answered it.  An error the
    caller sees is one the backend raised. *)
Theorem requests_are_forwarded_unvalidated
    (key : string) (keys : list string) (w : World St)
    (r : Result GetObject.Output) (s1 : St)
    (r' : Result DeleteObjects.Output) (s1' : St) :
  client this (GetObjectCommand (keyed this key)) (backend w) = (r, s1) →
  client this (delete_many_request this keys) (backend w) = (r', s1') →
  getRaw this key None w =
    (r, mkWorld s1 (requests w ++ [GetObjectCommand (keyed this key)])) ∧
  deleteMany this keys w =
    (r', mkWorld s1' (requests w ++ [delete_many_request this keys])).
Proof.
  intros Hget Hdel. split.
  - exact (getRaw_answer this key w r s1 Hget).
  - exact (deleteMany_answer this keys w r' s1' Hdel).
Qed.
End Forwarding.

(** Witness of C5: the empty key and the empty batch reach the backend. *)
Lemma requests_are_forwarded_unvalidated_witness :
  client plain_bucket (GetObjectCommand (keyed plain_bucket ""))
    (backend healthy) = (Thrown NotFound, backend healthy) ∧
  client plain_bucket (delete_many_request plain_bucket [])
    (backend healthy) = (Ok (DeleteObjects.mkOutput []), backend healthy) ∧
  getRaw plain_bucket "" None healthy =
    (Thrown NotFound,
     mkWorld (backend healthy)
       (requests healthy ++ [GetObjectCommand (keyed plain_bucket "")])) ∧
  deleteMany plain_bucket [] healthy =
    (Ok (DeleteObjects.mkOutput []),
     mkWorld (backend healthy)
       (requests healthy ++ [delete_many_request plain_bucket []])).
Proof.
  assert (Hget : client plain_bucket (GetObjectCommand (keyed plain_bucket ""))
                   (backend healthy) = (Thrown NotFound, backend healthy))
    by (vm_compute; reflexivity).
  assert (Hdel : client plain_bucket (delete_many_request plain_bucket [])
                   (backend healthy)
                 = (Ok (DeleteObjects.mkOutput []), backend healthy))
    by (vm_compute; reflexivity).
  split; [exact Hget|]. split; [exact Hdel|].
  exact (requests_are_forwarded_unvalidated plain_bucket "" [] healthy
           _ _ _ _ Hget Hdel).
Defined.

(** Counterexample to C5 as stated: on the reference backend the empty key
    is answered with [NotFound] and the empty batch is accepted. *)
Lemma empty_input_is_not_rejected :
  (getRaw plain_bucket "" None healthy).1 = Thrown NotFound ∧
  (deleteMany plain_bucket [] healthy).1 = Ok (DeleteObjects.mkOutput []) ∧
  ¬ rejects_empty_input plain_bucket healthy.
Proof.
  split; [by vm_compute|]. split; [by vm_compute|].
  intros [H _]. vm_compute in H. discriminate H.
Qed.

(** ** The decoder reads back what the encoder wrote *)

Section Utf8Facts.
Local Open Scope N_scope.

Lemma to_N_byte_of n : n < 256 → Byte.to_N (Utf8.byte_of n) = n.
Proof.
  intros Hn. unfold Utf8.byte_of.
  destruct (Byte.of_N n) as [b|] eqn:Hb; simpl.
  - by apply Byte.to_of_N.
  - apply Byte.of_N_None_iff in Hb. lia.
Qed.

Lemma lor_shiftl_6 hi lo : lo < 64 → N.lor (N.shiftl hi 6) lo = hi * 64 + lo.
Proof.
  intros Hlo. rewrite N.shiftl_mul_pow2. change (2 ^ 6) with 64.
  assert (Hdisj : N.land (hi * 64) lo = 0).
  { apply N.bits_inj_0. intros n. rewrite N.land_spec.
    destruct (N.lt_ge_cases n 6) as [Hn|Hn].
    - change 64 with (2 ^ 6). by rewrite N.mul_pow2_bits_low.
    - rewrite andb_comm.
      destruct (N.eq_dec lo 0) as [->|Hne]; [by rewrite N.bits_0|].
      rewrite N.bits_above_log2; [done|].
      assert (N.log2 lo < 6) by (apply N.log2_lt_pow2; [lia|done]). lia. }
  rewrite <- N.lxor_lor by done. by rewrite N.add_nocarry_lxor.
Qed.

Lemma land_low m n h : h < 2 ^ n → N.land (m * 2 ^ n + h) (N.ones n) = h.
Proof.
  intros Hh. rewrite N.land_ones.
  rewrite N.add_comm, N.Div0.mod_add. by apply N.mod_small.
Qed.

Ltac bool_arith :=
  repeat match goal with
         | |- context [?a <=? ?b] => destruct (N.leb_spec a b); simpl
         | |- context [?a <? ?b] => destruct (N.ltb_spec a b); simpl
         | |- context [?a =? ?b] => destruct (N.eqb_spec a b); simpl
         end; try lia; try done.

Lemma lead_ascii b : b < 0x80 → Utf8.lead b = (Utf8.initial, [b]).
Proof. intros H. unfold Utf8.lead, Utf8.between. bool_arith. Qed.

Lemma lead_two h :
  2 ≤ h → h < 32 →
  Utf8.lead (0xC0 + h) = (Utf8.mkState h 1 0x80 0xBF, []).
Proof.
  intros H1 H2. unfold Utf8.lead, Utf8.between. bool_arith.
  do 2 f_equal. exact (land_low 6 5 h H2).
Qed.

Lemma lead_three h :
  h < 16 →
  Utf8.lead (0xE0 + h) =
    (Utf8.mkState h 2 (if h =? 0 then 0xA0 else 0x80)
                      (if h =? 13 then 0x9F else 0xBF), []).
Proof.
  intros H. unfold Utf8.lead, Utf8.between.
  rewrite (land_low 14 4 h H : N.land (0xE0 + h) 0xF = h).
  bool_arith.
Qed.

Lemma lead_four h :
  h ≤ 4 →
  Utf8.lead (0xF0 + h) =
    (Utf8.mkState h 3 (if h =? 0 then 0x90 else 0x80)
                      (if h =? 4 then 0x8F else 0xBF), []).
Proof.
  intros H. unfold Utf8.lead, Utf8.between.
  rewrite (land_low 30 3 h ltac:(simpl; lia) : N.land (0xF0 + h) 0x7 = h).
  bool_arith.
Qed.

Lemma step_continuation cp n lo hi x :
  x < 64 → lo ≤ 0x80 + x → 0x80 + x ≤ hi →
  Utf8.step (Utf8.mkState cp (S n) lo hi) (0x80 + x) =
    match n with
    | O => (Utf8.initial, [cp * 64 + x])
    | _ => (Utf8.mkState (cp * 64 + x) n 0x80 0xBF, [])
    end.
Proof.
  intros Hx Hlo Hhi. unfold Utf8.step, Utf8.between; simpl.
  bool_arith.
  rewrite (land_low 2 6 x Hx : N.land (0x80 + x) 0x3F = x).
  by rewrite lor_shiftl_6.
Qed.

Lemma run_cons st b bs :
  Utf8.run st (b :: bs) =
    (Utf8.step st (Byte.to_N b)).2
      ++ Utf8.run (Utf8.step st (Byte.to_N b)).1 bs.
Proof. simpl. by destruct (Utf8.step st (Byte.to_N b)). Qed.

Lemma step_initial b : Utf8.step Utf8.initial b = Utf8.lead b.
Proof. reflexivity. Qed.

Lemma split_64 a : a = 64 * (a / 64) + a mod 64 ∧ a mod 64 < 64.
Proof.
  split; [apply N.Div0.div_mod | by apply N.mod_lt].
Qed.

Lemma run_encode_point cp rest :
  Utf8.scalar cp = true →
  Utf8.run Utf8.initial (Utf8.encode_point cp ++ rest)
    = cp :: Utf8.run Utf8.initial rest.
Proof.
  unfold Utf8.scalar, Utf8.encode_point. intros Hs.
  assert (Hcp : cp < 0xD800 ∨ (0xDFFF < cp ∧ cp < 0x110000)).
  { destruct (N.ltb_spec cp 0xD800); [by left|]. right.
    simpl in Hs. apply andb_true_iff in Hs as [H1 H2].
    split; [by apply N.ltb_lt | by apply N.ltb_lt]. }
  clear Hs.
  destruct (split_64 cp) as [E0 B0].
  destruct (split_64 (cp / 64)) as [E1 B1].
  destruct (split_64 (cp / 64 / 64)) as [E2 B2].
  replace (cp / 4096) with (cp / 64 / 64)
    by (by rewrite N.Div0.div_div).
  replace (cp / 262144) with (cp / 64 / 64 / 64)
    by (by rewrite !N.Div0.div_div).
  set (x0 := cp mod 64) in *. set (q1 := cp / 64) in *.
  set (x1 := q1 mod 64) in *. set (q2 := q1 / 64) in *.
  set (x2 := q2 mod 64) in *. set (q3 := q2 / 64) in *.
  destruct (N.ltb_spec cp 0x80) as [H1|H1];
    [|destruct (N.ltb_spec cp 0x800) as [H2|H2];
      [|destruct (N.ltb_spec cp 0x10000) as [H3|H3]]]; simpl app.
  - rewrite run_cons, to_N_byte_of, step_initial, lead_ascii by lia. done.
  - rewrite run_cons, to_N_byte_of, step_initial, lead_two by lia.
    cbn [fst snd app].
    rewrite run_cons, to_N_byte_of by lia.
    rewrite step_continuation by lia. cbn [fst snd app]. f_equal. lia.
  - rewrite run_cons, to_N_byte_of, step_initial, lead_three by lia.
    cbn [fst snd app].
    rewrite run_cons, to_N_byte_of by lia.
    rewrite step_continuation
      by (try destruct (N.eqb_spec q2 0); try destruct (N.eqb_spec q2 13); lia).
    cbn [fst snd app].
    rewrite run_cons, to_N_byte_of by lia.
    rewrite step_continuation by lia. cbn [fst snd app]. f_equal. lia.
  - rewrite run_cons, to_N_byte_of, step_initial, lead_four by lia.
    cbn [fst snd app].
    rewrite run_cons, to_N_byte_of by lia.
    rewrite step_continuation
      by (try destruct (N.eqb_spec q3 0); try destruct (N.eqb_spec q3 4); lia).
    cbn [fst snd app].
    rewrite run_cons, to_N_byte_of by lia.
    rewrite step_continuation by lia. cbn [fst snd app].
    rewrite run_cons, to_N_byte_of by lia.
    rewrite step_continuation by lia. cbn [fst snd app]. f_equal. lia.
Qed.

Lemma decode_encode t :
  forallb Utf8.scalar t = true → Utf8.decode (Utf8.encode t) = t.
Proof.
  unfold Utf8.decode, Utf8.encode. induction t as [|cp t IH]; [done|].
  simpl. intros [Hcp Ht]%andb_true_iff.
  rewrite run_encode_point by done. by rewrite IH.
Qed.
End Utf8Facts.

(** ** getText *)

Lemma collected_chunks (l acc : list Buffer) :
  foldl (λ chunks chunk, chunks ++ [chunk]) acc l = acc ++ l.
Proof.
  revert acc. induction l as [|c l IH]; intros acc; simpl.
  - by rewrite (right_id_L [] (++)).
  - rewrite IH. by rewrite <- (assoc_L (++)).
Qed.

Lemma streamToString_ended {St} (stream : Readable) (w : World St) :
  ending stream = Ended →
  streamToString stream w = (Ok (Utf8.decode (concat (chunks stream))), w).
Proof.
  intros H. unfold streamToString. rewrite H. by rewrite collected_chunks.
Qed.

Section GetText.
Context {St : Type} (this : AWSS3Bucket St).

(** C7. When the get request of a key is answered: without a body,
    [getText] resolves with the empty string; with a body that ends, it
    resolves with the UTF-8 decoding of all the chunks of the body put
    together: with the text [t] when those bytes are the UTF-8 encoding of
    [t], and so with "hi" when they are 0x68 0x69. *)
Theorem getText_drains_and_decodes
    (key : string) (w : World St) (rsp : GetObject.Output) (s1 : St) :
  client this (GetObjectCommand (keyed this key)) (backend w)
    = (Ok rsp, s1) →
  (GetObject.Body rsp = None →
   getText this key w =
     (Ok (text_of_string ""),
      mkWorld s1 (requests w ++ [GetObjectCommand (keyed this key)]))) ∧
  (∀ body, GetObject.Body rsp = Some body → ending body = Ended →
   getText this key w =
     (Ok (Utf8.decode (concat (chunks body))),
      mkWorld s1 (requests w ++ [GetObjectCommand (keyed this key)]))) ∧
  (∀ body t, GetObject.Body rsp = Some body → ending body = Ended →
   forallb Utf8.scalar t = true →
   concat (chunks body) = Utf8.encode t →
   getText this key w =
     (Ok t,
      mkWorld s1 (requests w ++ [GetObjectCommand (keyed this key)]))) ∧
  (∀ body, GetObject.Body rsp = Some body → ending body = Ended →
   concat (chunks body) = [x68; x69] →
   getText this key w =
     (Ok (text_of_string "hi"),
      mkWorld s1 (requests w ++ [GetObjectCommand (keyed this key)]))).
Proof.
  intros Hget. unfold getText.
  rewrite (await_Ok _ _ _ _ _ (getRaw_answer _ _ _ _ _ Hget)).
  split; [|split; [|split]].
  - by intros ->.
  - intros body -> Hend. by apply streamToString_ended.
  - intros body t -> Hend Ht Henc.
    rewrite (streamToString_ended _ _ Hend), Henc.
    by rewrite (decode_encode t Ht).
  - intros body -> Hend Hhi.
    rewrite (streamToString_ended _ _ Hend), Hhi. reflexivity.
Qed.
End GetText.

(** Witness of C7: the text of a.txt. *)
Lemma getText_drains_and_decodes_witness :
  client plain_bucket (GetObjectCommand (keyed plain_bucket "a.txt"))
    (backend healthy) = (Ok body_of_a, backend healthy) ∧
  getText plain_bucket "a.txt" healthy =
    (Ok (text_of_string "hi"),
     mkWorld (backend healthy)
       (requests healthy ++ [GetObjectCommand (keyed plain_bucket "a.txt")])).
Proof.
  assert (Hget : client plain_bucket
                   (GetObjectCommand (keyed plain_bucket "a.txt"))
                   (backend healthy) = (Ok body_of_a, backend healthy))
    by (vm_compute; reflexivity).
  split; [exact Hget|].
  exact (proj2 (proj2 (proj2 (getText_drains_and_decodes plain_bucket "a.txt"
                                healthy body_of_a (backend healthy) Hget)))
           _ eq_refl eq_refl eq_refl).
Defined.

(** ** blobToReadable *)

Lemma ceil_div_bounds n c :
  0 < c → (ceil_div n c - 1) * c < n ≤ ceil_div n c * c.
Proof.
  intros Hc. unfold ceil_div.
  pose proof (Z.div_mod (n + c - 1) c) as Hdm.
  pose proof (Z.mod_pos_bound (n + c - 1) c Hc) as Hm.
  nia.
Qed.

Lemma ceil_div_unique n c q :
  0 < c → (q - 1) * c < n ≤ q * c → ceil_div n c = q.
Proof.
  intros Hc Hq. unfold ceil_div. symmetry.
  apply Z.div_unique with (r := n + c - 1 - c * q); lia.
Qed.

Lemma drain_more fuel fuel' r cs :
  drain fuel r = Some cs → (fuel ≤ fuel')%nat → drain fuel' r = Some cs.
Proof.
  revert fuel' r cs. induction fuel as [|fuel IH]; intros fuel' r cs; [done|].
  intros H Hle. destruct fuel' as [|fuel']; [lia|]. simpl in *.
  destruct (read r) as [[c|] r']; [|done].
  destruct (drain fuel r') as [cs'|] eqn:Hd; [|done].
  by rewrite (IH fuel' r' cs' Hd) by lia.
Qed.

Lemma drain_less fuel fuel' r :
  drain fuel' r = None → (fuel ≤ fuel')%nat → drain fuel r = None.
Proof.
  intros Hnone Hle. destruct (drain fuel r) as [cs|] eqn:Hd; [|done].
  by rewrite (drain_more _ _ _ _ Hd Hle) in Hnone.
Qed.

Section BlobStream.
Variable blob : Buffer.
Variable C : Z.
Hypothesis C_pos : 0 < C.

Lemma Blob_slice_inside o e :
  0 ≤ o → o ≤ e → e ≤ Blob_size blob →
  Blob_slice blob o e = take (Z.to_nat (e - o)) (drop (Z.to_nat o) blob).
Proof.
  intros Ho Hoe He. unfold Blob_slice.
  rewrite (proj2 (Z.ltb_ge o 0)) by lia.
  rewrite (proj2 (Z.ltb_ge e 0)) by lia.
  by rewrite !Z.min_l, Z.max_l by lia.
Qed.

Lemma read_at_end o :
  Blob_size blob ≤ o →
  read (mkBlobReadable blob C o) = (PushNull, mkBlobReadable blob C o).
Proof.
  intros Ho. unfold read; simpl.
  by rewrite (proj2 (Z.geb_le o (Blob_size blob))) by lia.
Qed.

Lemma read_before_end o :
  0 ≤ o → o < Blob_size blob →
  read (mkBlobReadable blob C o) =
    (PushChunk (take (Z.to_nat (Z.min (o + C) (Blob_size blob) - o))
                     (drop (Z.to_nat o) blob)),
     mkBlobReadable blob C (Z.min (o + C) (Blob_size blob))).
Proof.
  intros Ho Hlt. unfold read; simpl.
  destruct (o >=? Blob_size blob) eqn:Hge; [apply Z.geb_le in Hge; lia|].
  by rewrite Blob_slice_inside by lia.
Qed.

(** Draining from the cursor [o] when [k] chunks remain. *)
Lemma drain_from (k : nat) : ∀ o,
  0 ≤ o → o ≤ Blob_size blob →
  ceil_div (Blob_size blob - o) C = Z.of_nat k →
  drain k (mkBlobReadable blob C o) = None ∧
  ∃ cs,
    drain (S k) (mkBlobReadable blob C o) = Some cs ∧
    length cs = k ∧
    concat cs = drop (Z.to_nat o) blob ∧
    ∀ (i : nat) c, cs !! i = Some c →
      Z.of_nat (length c) =
        if decide (S i = k)
        then Blob_size blob - o - (Z.of_nat k - 1) * C else C.
Proof.
  induction k as [|k IH]; intros o Ho Hos Hk.
  - pose proof (ceil_div_bounds (Blob_size blob - o) C C_pos) as Hb.
    rewrite Hk in Hb. split; [done|]. exists []. simpl.
    rewrite read_at_end by lia. repeat split; [|done].
    symmetry. apply drop_ge. unfold Blob_size in *. lia.
  - pose proof (ceil_div_bounds (Blob_size blob - o) C C_pos) as Hb.
    rewrite Hk in Hb.
    assert (Hlt : o < Blob_size blob) by nia.
    set (e := Z.min (o + C) (Blob_size blob)).
    assert (He : ceil_div (Blob_size blob - e) C = Z.of_nat k).
    { apply ceil_div_unique; [done|]. unfold e. lia. }
    destruct (IH e) as (Hnone & cs & Hcs & Hlen & Hcat & Hsz);
      [unfold e; lia | unfold e; lia | done |].
    split.
    + simpl. rewrite read_before_end by lia. fold e. by rewrite Hnone.
    + exists (take (Z.to_nat (e - o)) (drop (Z.to_nat o) blob) :: cs).
      split; [|split; [|split]].
      * change (drain (S (S k)) ?r)
          with (match read r with
                | (PushNull, _) => Some []
                | (PushChunk chunk, r') => cons chunk <$> drain (S k) r'
                end).
        rewrite read_before_end by lia. fold e. by rewrite Hcs.
      * simpl. by rewrite Hlen.
      * simpl. rewrite Hcat.
        replace (Z.to_nat e) with (Z.to_nat (e - o) + Z.to_nat o)%nat
          by (unfold e; lia).
        rewrite Nat.add_comm, <- drop_drop. apply take_drop.
      * intros i c Hi. destruct i as [|i]; simpl in Hi.
        -- injection Hi as <-. rewrite length_take, length_drop.
           destruct (decide (1%nat = S k)) as [Heq|Hneq];
             unfold e, Blob_size in *.
           ++ assert (k = 0%nat) as -> by lia. lia.
           ++ assert (C ≤ Z.of_nat k * C) by nia. lia.
        -- rewrite (Hsz i c Hi).
           destruct (decide (S i = k)), (decide (S (S i) = S k));
             try lia.
           assert (C ≤ Z.of_nat k * C) by nia. unfold e in *. lia.
Qed.
End BlobStream.

Lemma last_chunk_length size c k :
  0 < c → (k - 1) * c < size ≤ k * c →
  size - (k - 1) * c = if decide (size mod c = 0) then c else size mod c.
Proof.
  intros Hc Hk.
  pose proof (Z.div_mod size c) as Hdm.
  pose proof (Z.mod_pos_bound size c Hc) as Hm.
  destruct (decide (size mod c = 0)) as [H0|Hn0].
  - assert (size / c = k) by nia. nia.
  - assert (size / c = k - 1) by nia. nia.
Qed.

Lemma stalled_stream fuel : drain fuel (mkBlobReadable [x00] 0 0) = None.
Proof.
  induction fuel as [|fuel IH]; [done|].
  change (drain (S fuel) ?r)
    with (match read r with
          | (PushNull, _) => Some []
          | (PushChunk chunk, r') => cons chunk <$> drain fuel r'
          end).
  change (read (mkBlobReadable [x00] 0 0))
    with (PushChunk [], mkBlobReadable [x00] 0 0).
  cbv beta iota. by rewrite IH.
Qed.

(** C4, amended. For every blob of [S] bytes and every chunk size [C] of
    at least one byte, the stream hands out [ceil(S/C)] chunks and signals
    the end at the next read and not before; every chunk has [C] bytes but
    the last, which has [S mod C] bytes, or [C] when [S mod C = 0]; the
    chunks put together are the blob, so [S] bytes in all.  Without a
    chunk size the stream cuts every 64 KiB. *)
Theorem blobToReadable_chunks (blob : Buffer) (C : Z) :
  0 < C →
  ∃ emitted : list Buffer,
    (∀ fuel,
       (Z.to_nat (ceil_div (Blob_size blob) C) < fuel)%nat →
       drain fuel (blobToReadable blob (Some C)) = Some emitted) ∧
    (∀ fuel,
       (fuel ≤ Z.to_nat (ceil_div (Blob_size blob) C))%nat →
       drain fuel (blobToReadable blob (Some C)) = None) ∧
    chunked_as_specified (Blob_size blob) C emitted ∧
    concat emitted = blob ∧
    chunkSize (blobToReadable blob None) = 64 * 1024.
Proof.
  intros HC.
  pose proof (ceil_div_bounds (Blob_size blob) C HC) as Hb.
  set (q := ceil_div (Blob_size blob) C) in *.
  assert (Hsize : 0 ≤ Blob_size blob) by (unfold Blob_size; lia).
  assert (Hq : 0 ≤ q) by nia.
  destruct (drain_from blob C HC (Z.to_nat q) 0)
    as (Hnone & cs & Hcs & Hlen & Hcat & Hsz);
    [lia | lia | rewrite Z.sub_0_r; fold q; lia |].
  exists cs. split; [|split; [|split; [|split]]].
  - intros fuel Hfuel. eapply drain_more; [exact Hcs | lia].
  - intros fuel Hfuel. eapply drain_less; [exact Hnone | lia].
  - split; [lia|]. split.
    + intros i c Hi. rewrite (Hsz i c Hi), Hlen.
      destruct (decide (S i = Z.to_nat q)) as [Heq|Hneq]; [|done].
      rewrite Z.sub_0_r, Z2Nat.id by lia.
      by apply last_chunk_length.
    + by rewrite Hcat.
  - exact Hcat.
  - reflexivity.
Qed.

(** Witness of C4: five bytes cut every two. *)
Lemma blobToReadable_chunks_witness :
  0 < 2 ∧
  ∃ emitted : list Buffer,
    (∀ fuel,
       (Z.to_nat (ceil_div (Blob_size five_bytes) 2) < fuel)%nat →
       drain fuel (blobToReadable five_bytes (Some 2)) = Some emitted) ∧
    (∀ fuel,
       (fuel ≤ Z.to_nat (ceil_div (Blob_size five_bytes) 2))%nat →
       drain fuel (blobToReadable five_bytes (Some 2)) = None) ∧
    chunked_as_specified (Blob_size five_bytes) 2 emitted ∧
    concat emitted = five_bytes ∧
    chunkSize (blobToReadable five_bytes None) = 64 * 1024.
Proof.
  assert (H : 0 < 2) by reflexivity.
  exact (conj H (blobToReadable_chunks five_bytes 2 H)).
Defined.

(** Counterexample to C4 as stated: with chunk size 0 every read hands out
    an empty chunk and leaves the cursor where it was, so the end of a
    one-byte blob is never signalled and its byte is never handed out. *)
Lemma blobToReadable_zero_chunk_never_ends :
  ¬ stream_as_specified [x00] 0.
Proof.
  intros (emitted & (fuel & Hdrain) & _).
  change (blobToReadable [x00] (Some 0)) with (mkBlobReadable [x00] 0 0)
    in Hdrain.
  by rewrite stalled_stream in Hdrain.
Qed.

(** ** Further runs on the reference backend *)

(** An object without payload reads as the empty string, and an object
    without metadata has the empty object as its head. *)
Lemma getText_of_bare_object :
  (getText plain_bucket "empty" bare_object).1 = Ok (text_of_string "").
Proof. vm_compute. reflexivity. Qed.

Lemma getHead_of_bare_object :
  (getHead plain_bucket "empty" bare_object).1 = Ok (∅ : JSObject).
Proof. vm_compute. reflexivity. Qed.

(** On the reference backend, which does not send a property that holds
    [undefined], the default [putHead] with such a property erases the
    stored value. *)
Lemma putHead_undefined_erases_stored_value :
  (putHead plain_bucket "a.txt" undefined_owner healthy).1 = Ok () ∧
  metadata <$> objects (backend healthy) !! "a.txt"
    = Some {[ "owner" := "bob" ]} ∧
  metadata <$>
    objects (backend (putHead plain_bucket "a.txt" undefined_owner healthy).2)
      !! "a.txt" = Some ∅.
Proof. repeat split; vm_compute; reflexivity. Qed.

(** * Beyond the claims *)

(** ** The default merge policy *)

Lemma dom_spread (A B : JSObject) : dom (spread A B) = dom A ∪ dom B.
Proof.
  unfold spread, Object_assign. rewrite (right_id_L ∅ (∪)).
  rewrite dom_union_L. apply (comm_L (∪)).
Qed.

Lemma spread_empty_update (A : JSObject) : spread A ∅ = A.
Proof.
  apply map_eq. intros k. unfold spread, Object_assign.
  rewrite (right_id_L ∅ (∪)). by rewrite (left_id_L ∅ (∪)).
Qed.

Lemma spread_spread (A B1 B2 : JSObject) :
  spread (spread A B1) B2 = spread A (spread B1 B2).
Proof.
  apply map_eq. intros k. unfold spread, Object_assign.
  rewrite !(right_id_L ∅ (∪)). by rewrite (assoc_L (∪)).
Qed.

Lemma spread_twice (A B : JSObject) : spread (spread A B) B = spread A B.
Proof.
  apply map_eq. intros k. unfold spread, Object_assign.
  rewrite !(right_id_L ∅ (∪)). rewrite (assoc_L (∪)).
  by rewrite (idemp_L (∪)).
Qed.

Section DefaultMerge.
Context {St : Type} (this : AWSS3Bucket St).

(** X1. Without a merge function, when the head request is answered, the
    metadata that [putHead] sends has the keys of what was read and the
    keys of the update, and no other: the facade drops no key.  An empty
    update sends back what was read, and the copy is sent all the same. *)
Theorem putHead_default_keeps_every_key
    (key : string) (B : JSObject) (w : World St)
    (rsp : HeadObject.Output) (s1 : St) :
  mergeMetadata (_config this) = None →
  client this (HeadObjectCommand (keyed this key)) (backend w)
    = (Ok rsp, s1) →
  ∃ R : JSObject,
    requests (putHead this key B w).2 =
      requests w ++ [HeadObjectCommand (keyed this key);
                     self_copy_request this key R] ∧
    dom R = dom (or_empty (HeadObject.Metadata rsp)) ∪ dom B ∧
    (B = ∅ → R = or_empty (HeadObject.Metadata rsp)).
Proof.
  intros Hnone Hhead.
  exists (spread (or_empty (HeadObject.Metadata rsp)) B). split; [|split].
  - rewrite (putHead_requests _ _ _ _ _ _ Hhead).
    unfold newMetadata. by rewrite Hnone.
  - apply dom_spread.
  - intros ->. apply spread_empty_update.
Qed.

(** X2. Without a merge function, for an update none of whose properties
    holds [undefined], [putHead] does what the specification says of the
    default policy: a value of the update wins and every other key read
    keeps its value. *)
Theorem putHead_default_overlays_defined_update
    (key : string) (B : JSObject) (w : World St) :
  map_Forall (λ _ v, v ≠ JSUndefined) B →
  default_putHead_as_specified this key B w.
Proof.
  intros Hdef rsp s1 Hnone Hhead.
  exists (spread (or_empty (HeadObject.Metadata rsp)) B). split; [|split].
  - rewrite (putHead_requests _ _ _ _ _ _ Hhead).
    unfold newMetadata. by rewrite Hnone.
  - intros k v Hk. unfold js_get. by rewrite lookup_spread, Hk.
  - intros k _ Hk. unfold js_get. rewrite lookup_spread.
    destruct (B !! k) as [[|v]|] eqn:HB; [|by destruct (Hk v)|done].
    by destruct (Hdef k JSUndefined HB).
Qed.

(** X3. Without a merge function, what [putHead] computes for an update
    [B2] from the result of an update [B1] is what it computes for the one
    update [{ ...B1, ...B2 }], and repeating an update changes nothing. *)
Theorem default_merge_composes (A B1 B2 : JSObject) :
  mergeMetadata (_config this) = None →
  newMetadata this (newMetadata this A B1) B2
    = newMetadata this A (spread B1 B2) ∧
  newMetadata this (newMetadata this A B1) B1 = newMetadata this A B1.
Proof.
  intros Hnone. unfold newMetadata. rewrite Hnone. split.
  - apply spread_spread.
  - apply spread_twice.
Qed.
End DefaultMerge.

(** Witness of X1. *)
Lemma putHead_default_keeps_every_key_witness :
  mergeMetadata (_config plain_bucket) = None ∧
  client plain_bucket (HeadObjectCommand (keyed plain_bucket "a.txt"))
    (backend healthy) = (Ok head_of_a, backend healthy) ∧
  ∃ R : JSObject,
    requests (putHead plain_bucket "a.txt" new_owner healthy).2 =
      requests healthy
        ++ [HeadObjectCommand (keyed plain_bucket "a.txt");
            self_copy_request plain_bucket "a.txt" R] ∧
    dom R = dom (or_empty (HeadObject.Metadata head_of_a)) ∪ dom new_owner ∧
    (new_owner = ∅ → R = or_empty (HeadObject.Metadata head_of_a)).
Proof.
  assert (Hhead : client plain_bucket
                    (HeadObjectCommand (keyed plain_bucket "a.txt"))
                    (backend healthy) = (Ok head_of_a, backend healthy))
    by (vm_compute; reflexivity).
  split; [reflexivity|]. split; [exact Hhead|].
  exact (putHead_default_keeps_every_key plain_bucket "a.txt" new_owner
           healthy head_of_a (backend healthy) eq_refl Hhead).
Defined.

(** Witness of X2. *)
Lemma putHead_default_overlays_defined_update_witness :
  map_Forall (λ _ v, v ≠ JSUndefined) new_owner ∧
  default_putHead_as_specified plain_bucket "a.txt" new_owner healthy.
Proof.
  assert (Hdef : map_Forall (λ _ v, v ≠ JSUndefined) new_owner).
  { apply map_Forall_singleton. discriminate. }
  exact (conj Hdef
           (putHead_default_overlays_defined_update plain_bucket "a.txt"
              new_owner healthy Hdef)).
Defined.

(** Witness of X3. *)
Lemma default_merge_composes_witness :
  mergeMetadata (_config plain_bucket) = None ∧
  newMetadata plain_bucket (newMetadata plain_bucket ∅ new_owner)
              undefined_owner
    = newMetadata plain_bucket ∅ (spread new_owner undefined_owner) ∧
  newMetadata plain_bucket (newMetadata plain_bucket ∅ new_owner) new_owner
    = newMetadata plain_bucket ∅ new_owner.
Proof.
  exact (conj eq_refl
           (default_merge_composes plain_bucket ∅ new_owner undefined_owner
              eq_refl)).
Defined.

(** ** xserializeMetadata *)




(** ** Overrides of the raw methods *)


Section Overrides.
Context {St : Type} (this : AWSS3Bucket St).


End Overrides.



(** ** get, getText and streamToString *)

Section Reading.
Context {St : Type} (this : AWSS3Bucket St).

(** X8. [get] sends one get request: when it is answered the caller gets
    the body of the answer, or [null] when the answer has none, and the
    stream is handed over unread; when it is rejected [get] and [getText]
    both reject with the error of the request. *)
Theorem get_returns_body_or_null
    (key : string) (w : World St)
    (r : Result GetObject.Output) (s1 : St) :
  client this (GetObjectCommand (keyed this key)) (backend w) = (r, s1) →
  get this key w =
    (match r with
     | Ok rsp => Ok (GetObject.Body rsp)
     | Thrown e => Thrown e
     end,
     mkWorld s1 (requests w ++ [GetObjectCommand (keyed this key)])) ∧
  (∀ e, r = Thrown e →
        getText this key w =
          (Thrown e,
           mkWorld s1 (requests w ++ [GetObjectCommand (keyed this key)]))).
Proof.
  intros Hget. split.
  - unfold get. destruct r as [rsp|e].
    + by rewrite (await_Ok _ _ _ _ _ (getRaw_answer _ _ _ _ _ Hget)).
    + by rewrite (await_Thrown _ _ _ _ _ (getRaw_answer _ _ _ _ _ Hget)).
  - intros e ->. unfold getText.
    by rewrite (await_Thrown _ _ _ _ _ (getRaw_answer _ _ _ _ _ Hget)).
Qed.

(** X9. When the body of the answer fails before it ends, [getText]
    rejects with the error of the stream: the chunks read so far are not
    returned, and no further request is sent. *)
Theorem getText_rejects_when_the_body_fails
    (key : string) (w : World St) (rsp : GetObject.Output) (s1 : St)
    (body : Readable) (e : Error) :
  client this (GetObjectCommand (keyed this key)) (backend w)
    = (Ok rsp, s1) →
  GetObject.Body rsp = Some body →
  ending body = Errored e →
  getText this key w =
    (Thrown e,
     mkWorld s1 (requests w ++ [GetObjectCommand (keyed this key)])).
Proof.
  intros Hget Hbody Hend. unfold getText.
  rewrite (await_Ok _ _ _ _ _ (getRaw_answer _ _ _ _ _ Hget)).
  rewrite Hbody. unfold streamToString. by rewrite Hend.
Qed.
End Reading.

(** Witness of X8. *)
Lemma get_returns_body_or_null_witness :
  client plain_bucket (GetObjectCommand (keyed plain_bucket "a.txt"))
    (backend healthy) = (Ok body_of_a, backend healthy) ∧
  (get plain_bucket "a.txt" healthy).1
    = Ok (Some (mkReadable [[x68; x69]] Ended)).
Proof.
  assert (Hget : client plain_bucket
                   (GetObjectCommand (keyed plain_bucket "a.txt"))
                   (backend healthy) = (Ok body_of_a, backend healthy))
    by (vm_compute; reflexivity).
  split; [exact Hget|].
  exact (f_equal fst
           (proj1 (get_returns_body_or_null plain_bucket "a.txt" healthy
                     _ _ Hget))).
Defined.

(** Witness of X9. *)
Lemma getText_rejects_when_the_body_fails_witness :
  client breaking_bucket (GetObjectCommand (keyed breaking_bucket "a.txt"))
    (backend healthy) = (Ok broken_body, backend healthy) ∧
  getText breaking_bucket "a.txt" healthy =
    (Thrown (BackendError "ECONNRESET"),
     mkWorld (backend healthy)
       (requests healthy
          ++ [GetObjectCommand (keyed breaking_bucket "a.txt")])).
Proof.
  assert (Hget : client breaking_bucket
                   (GetObjectCommand (keyed breaking_bucket "a.txt"))
                   (backend healthy) = (Ok broken_body, backend healthy))
    by reflexivity.
  split; [exact Hget|].
  exact (getText_rejects_when_the_body_fails breaking_bucket "a.txt" healthy
           broken_body (backend healthy) _ _ Hget eq_refl eq_refl).
Defined.

(** X10. What [streamToString] resolves with depends on the bytes of the
    stream and not on how they are cut in chunks: two streams that end and
    carry the same bytes give the same text, and nothing is sent. *)
Theorem streamToString_ignores_chunk_boundaries
    {St : Type} (s1 s2 : Readable) (w : World St) :
  ending s1 = Ended → ending s2 = Ended →
  concat (chunks s1) = concat (chunks s2) →
  streamToString s1 w = streamToString s2 w ∧
  (streamToString s1 w).2 = w.
Proof.
  intros H1 H2 Hsame.
  rewrite (streamToString_ended s1 w H1), (streamToString_ended s2 w H2).
  by rewrite Hsame.
Qed.

(** X11. [streamToString] reads back a text from its UTF-8 encoding,
    however the encoding is cut in chunks, a cut inside the bytes of one
    code point included. *)
Theorem streamToString_reads_back_encoded_text
    {St : Type} (t : Text) (stream : Readable) (w : World St) :
  forallb Utf8.scalar t = true →
  ending stream = Ended →
  concat (chunks stream) = Utf8.encode t →
  streamToString stream w = (Ok t, w).
Proof.
  intros Ht Hend Henc.
  rewrite (streamToString_ended stream w Hend), Henc.
  by rewrite (decode_encode t Ht).
Qed.

(** Witness of X10. *)
Lemma streamToString_ignores_chunk_boundaries_witness :
  ending e_acute_split = Ended ∧ ending e_acute_whole = Ended ∧
  concat (chunks e_acute_split) = concat (chunks e_acute_whole) ∧
  streamToString e_acute_split healthy = streamToString e_acute_whole healthy.
Proof.
  split; [reflexivity|]. split; [reflexivity|]. split; [reflexivity|].
  exact (proj1 (streamToString_ignores_chunk_boundaries e_acute_split
                  e_acute_whole healthy eq_refl eq_refl eq_refl)).
Defined.

(** Witness of X11: U+00E9, its two bytes in two chunks. *)
Lemma streamToString_reads_back_encoded_text_witness :
  forallb Utf8.scalar [0xE9%N] = true ∧
  concat (chunks e_acute_split) = Utf8.encode [0xE9%N] ∧
  streamToString e_acute_split healthy = (Ok [0xE9%N], healthy).
Proof.
  split; [reflexivity|]. split; [reflexivity|].
  exact (streamToString_reads_back_encoded_text [0xE9%N] e_acute_split
           healthy eq_refl eq_refl eq_refl).
Defined.

(** ** blobToReadable at the edges *)

Lemma drain_step fuel r :
  drain (S fuel) r =
    match read r with
    | (PushNull, _) => Some []
    | (PushChunk chunk, r') => cons chunk <$> drain fuel r'
    end.
Proof. reflexivity. Qed.

Lemma drain_stalls blob C :
  C ≤ 0 → ∀ fuel o, o < Blob_size blob →
  drain fuel (mkBlobReadable blob C o) = None.
Proof.
  intros HC. induction fuel as [|fuel IH]; intros o Ho; [done|].
  rewrite drain_step. unfold read; simpl.
  destruct (o >=? Blob_size blob) eqn:Hge; [apply Z.geb_le in Hge; lia|].
  by rewrite IH by lia.
Qed.

(** X12. The stream of an empty blob signals the end at the first read,
    whatever the chunk size, zero and negative sizes included: no chunk is
    handed out. *)
Theorem blobToReadable_of_empty_blob_ends_at_once
    (chunkSize : option Z) (fuel : nat) :
  drain (S fuel) (blobToReadable [] chunkSize) = Some [].
Proof. reflexivity. Qed.

(** X13. With a chunk size of zero or less the stream of a blob that is
    not empty never signals the end, however often it is read: the cursor
    never moves forward. *)
Theorem blobToReadable_never_ends_without_progress
    (blob : Buffer) (C : Z) (fuel : nat) :
  C ≤ 0 → blob ≠ [] →
  drain fuel (blobToReadable blob (Some C)) = None.
Proof.
  intros HC Hne. apply drain_stalls; [done|].
  unfold Blob_size. destruct blob; [done|]. simpl. lia.
Qed.

(** X14. A blob that is not empty and no larger than the chunk size is
    handed out in one chunk, the blob itself, and the end is signalled at
    the second read; with the default chunk size this holds for every blob
    of at most 64 KiB. *)
Theorem blobToReadable_small_blob_is_one_chunk
    (blob : Buffer) (C : Z) (fuel : nat) :
  blob ≠ [] → Blob_size blob ≤ C →
  drain (S (S fuel)) (blobToReadable blob (Some C)) = Some [blob] ∧
  drain 1 (blobToReadable blob (Some C)) = None ∧
  (Blob_size blob ≤ 64 * 1024 →
   drain (S (S fuel)) (blobToReadable blob None) = Some [blob]).
Proof.
  intros Hne Hle.
  assert (Hsize : 0 < Blob_size blob).
  { unfold Blob_size. destruct blob; [done|]. simpl. lia. }
  assert (Hone : ∀ c, Blob_size blob ≤ c →
            read (mkBlobReadable blob c 0)
            = (PushChunk blob, mkBlobReadable blob c (Blob_size blob))).
  { intros c Hc. rewrite read_before_end by lia.
    rewrite Z.min_r by lia. rewrite Z.sub_0_r.
    change (Z.to_nat 0) with 0%nat. rewrite drop_0.
    by rewrite take_ge by (unfold Blob_size; lia). }
  assert (Hall : ∀ c, Blob_size blob ≤ c →
            drain (S (S fuel)) (mkBlobReadable blob c 0) = Some [blob]).
  { intros c Hc. rewrite drain_step, (Hone c Hc), drain_step.
    by rewrite read_at_end by lia. }
  split; [exact (Hall C Hle)|]. split.
  - unfold blobToReadable; simpl default.
    by rewrite drain_step, (Hone C Hle).
  - intros Hdefault. exact (Hall (1024 * 64) Hdefault).
Qed.

(** Witness of X13: five bytes and a chunk size of minus one. *)
Lemma blobToReadable_never_ends_without_progress_witness :
  -1 ≤ 0 ∧ five_bytes ≠ [] ∧
  drain 100 (blobToReadable five_bytes (Some (-1))) = None.
Proof.
  assert (H1 : -1 ≤ 0) by discriminate.
  assert (H2 : five_bytes ≠ []) by discriminate.
  exact (conj H1 (conj H2
           (blobToReadable_never_ends_without_progress five_bytes (-1) 100
              H1 H2))).
Defined.

(** Witness of X14: five bytes and a chunk size of five. *)
Lemma blobToReadable_small_blob_is_one_chunk_witness :
  five_bytes ≠ [] ∧ Blob_size five_bytes ≤ 5 ∧
  drain 2 (blobToReadable five_bytes (Some 5)) = Some [five_bytes].
Proof.
  assert (H1 : five_bytes ≠ []) by discriminate.
  assert (H2 : Blob_size five_bytes ≤ 5) by discriminate.
  exact (conj H1 (conj H2
           (proj1 (blobToReadable_small_blob_is_one_chunk five_bytes 5 0
                     H1 H2)))).
Defined.

(** ** put and getHeads *)

Lemma drain_delivers (b : Buffer) (C : Z) :
  0 < C →
  ∃ cs, drain (S (length b)) (mkBlobReadable b C 0) = Some cs ∧
        concat cs = b.
Proof.
  intros HC.
  pose proof (ceil_div_bounds (Blob_size b) C HC) as Hb.
  set (q := ceil_div (Blob_size b) C) in *.
  assert (Hsize : 0 ≤ Blob_size b) by (unfold Blob_size; lia).
  assert (Hq : 0 ≤ q) by nia.
  destruct (drain_from b C HC (Z.to_nat q) 0)
    as (_ & cs & Hcs & _ & Hcat & _);
    [lia | lia | rewrite Z.sub_0_r; fold q; lia |].
  exists cs. split; [|exact Hcat].
  apply (drain_more _ _ _ _ Hcs). unfold Blob_size in *. nia.
Qed.


Section PutAndList.
Context {St : Type} (this : AWSS3Bucket St).
Context (send_PutObject :
           PutObject.Input → St → Result PutObject.Output * St).
Context (send_ListObjects :
           ListObjects.Input → St → Result ListObjects.Output * St).


(** X16. [getHeads] sends one list request, for the bucket of the facade
    with the prefix, the marker and the limit of the options, and returns
    the entries of the answer, or the empty list when the answer has none;
    it sends no second request, whatever the answer says about being
    truncated.  A rejection is what the caller gets. *)
Theorem getHeads_returns_one_page
    (options : option FetchHeadsOptions) (w : World St)
    (r : Result ListObjects.Output) (s1 : St) :
  send_ListObjects
    (ListObjects.mk (Some (name this))
       (prefix (default (mkOptions None None None) options))
       (marker (default (mkOptions None None None) options))
       (limit (default (mkOptions None None None) options)) ∅)
    (backend w) = (r, s1) →
  getHeads this send_ListObjects options w =
    (match r with
     | Ok rsp => Ok (default [] (ListObjects.Contents rsp))
     | Thrown e => Thrown e
     end, mkWorld s1 (requests w)).
Proof.
  intros Hlist. unfold getHeads, getHeadsRaw, ListObjects.spread; simpl.
  rewrite (left_id_L ∅ (∪)).
  set (o := default (mkOptions None None None) options) in *.
  assert (Hs : client_send_other send_ListObjects
                 (ListObjects.mk (Some (name this)) (prefix o ∪ None)
                    (marker o ∪ None) (limit o ∪ None) ∅) w
               = (r, mkWorld s1 (requests w))).
  { unfold client_send_other.
    replace (prefix o ∪ None) with (prefix o) by (by destruct (prefix o)).
    replace (marker o ∪ None) with (marker o) by (by destruct (marker o)).
    replace (limit o ∪ None) with (limit o) by (by destruct (limit o)).
    by rewrite Hlist. }
  destruct r as [rsp|e].
  - by rewrite (await_Ok _ _ _ _ _ Hs).
  - by rewrite (await_Thrown _ _ _ _ _ Hs).
Qed.
End PutAndList.

(** A run of [put]: five bytes given as a blob are stored as they are. *)
Lemma put_of_a_blob_on_the_reference_backend :
  put plain_bucket mem_put "c.bin" (DataBlob five_bytes) healthy
    = (Ok (), mkWorld with_five_bytes []).
Proof. vm_compute. reflexivity. Qed.

(** Witness of X16: the keys that start with a. *)
Lemma getHeads_returns_one_page_witness :
  mem_list
    (ListObjects.mk (Some (name plain_bucket)) (Some "a") None (Some 10) ∅)
    (backend healthy)
    = (Ok (ListObjects.mkOutput
             (Some [ListObjects.mkEntry (Some "a.txt") (Some 2)])
             (Some false) None), backend healthy) ∧
  getHeads plain_bucket mem_list
    (Some (mkOptions None (Some "a") (Some 10))) healthy
    = (Ok [ListObjects.mkEntry (Some "a.txt") (Some 2)],
       mkWorld (backend healthy) (requests healthy)).
Proof.
  assert (Hlist : mem_list
                    (ListObjects.mk (Some (name plain_bucket)) (Some "a")
                                    None (Some 10) ∅)
                    (backend healthy)
                  = (Ok (ListObjects.mkOutput
                           (Some [ListObjects.mkEntry (Some "a.txt") (Some 2)])
                           (Some false) None), backend healthy))
    by (vm_compute; reflexivity).
  split; [exact Hlist|].
  exact (getHeads_returns_one_page plain_bucket mem_list
           (Some (mkOptions None (Some "a") (Some 10))) healthy _ _ Hlist).
Defined.

(** ** A rename that goes through *)

Lemma mem_delete_removes : delete_removes mem_send objects.
Proof.
  intros b k s r s'. unfold mem_send.
  destruct (faults s) as [|[e'|] rest]; [|done|]; simpl;
    (destruct (decide (b = bucket s)); [|done]); by intros [= _ <-].
Qed.

Section RenameDone.
Context {St : Type} (this : AWSS3Bucket St).

(** X17. For distinct keys, when the copy and the delete both succeed the
    caller gets no error and the two requests are the only ones sent.  On
    any backend where a successful copy leaves the object at the old key
    and its payload at the new key, and where a successful delete removes
    the object it names and nothing else, nothing is left at [a] and the
    payload is at [b]. *)
Theorem rename_moves_the_object
    (view : St → gmap string S3Object) (a b : string) (w : World St)
    (r : CopyObject.Output) (s1 : St)
    (r' : DeleteObject.Output) (s2 : St) :
  a ≠ b →
  client this (copy_request this a b) (backend w) = (Ok r, s1) →
  client this (DeleteObjectCommand (keyed this a)) s1 = (Ok r', s2) →
  rename this a b w =
    (Ok (),
     mkWorld s2
       (requests w ++ [copy_request this a b;
                       DeleteObjectCommand (keyed this a)])) ∧
  (copy_duplicates (client this) view →
   delete_removes (client this) view →
   view s2 !! a = None ∧
   ∃ o, view s1 !! a = Some o ∧
        payload <$> view s2 !! b = Some (payload o)).
Proof.
  intros Hne Hcopy Hdel. split.
  - unfold rename. rewrite decide_False by done.
    rewrite (await_Ok _ _ _ _ _ (copyRaw_answer _ _ _ _ _ _ Hcopy)).
    pose proof (deleteRaw_answer this a
                  (mkWorld s1 (requests w ++ [copy_request this a b]))
                  _ s2 Hdel) as Hd.
    simpl in Hd. rewrite <- (assoc_L (++)) in Hd. simpl in Hd.
    by rewrite (await_Ok _ _ _ _ _ Hd).
  - intros Hdup Hrem.
    destruct (Hdup _ _ _ _ _ _ Hcopy) as (o & Ha & Hb).
    rewrite (Hrem _ _ _ _ _ Hdel). split.
    + apply lookup_delete_eq.
    + exists o. split; [done|]. by rewrite lookup_delete_ne.
Qed.
End RenameDone.

(** Witness of X17: a.txt becomes b.txt. *)
Lemma rename_moves_the_object_witness :
  "a.txt" ≠ "b.txt" ∧
  client plain_bucket (copy_request plain_bucket "a.txt" "b.txt")
    (backend healthy) = (Ok (CopyObject.mkOutput None), after_refusal) ∧
  client plain_bucket (DeleteObjectCommand (keyed plain_bucket "a.txt"))
    after_refusal = (Ok (DeleteObject.mkOutput None), renamed) ∧
  rename plain_bucket "a.txt" "b.txt" healthy =
    (Ok (),
     mkWorld renamed
       (requests healthy
          ++ [copy_request plain_bucket "a.txt" "b.txt";
              DeleteObjectCommand (keyed plain_bucket "a.txt")])) ∧
  objects renamed !! "a.txt" = None ∧
  ∃ o, objects after_refusal !! "a.txt" = Some o ∧
       payload <$> objects renamed !! "b.txt" = Some (payload o).
Proof.
  assert (Hne : "a.txt" ≠ "b.txt") by discriminate.
  assert (Hcopy : client plain_bucket
                    (copy_request plain_bucket "a.txt" "b.txt")
                    (backend healthy)
                  = (Ok (CopyObject.mkOutput None), after_refusal))
    by (vm_compute; reflexivity).
  assert (Hdel : client plain_bucket
                   (DeleteObjectCommand (keyed plain_bucket "a.txt"))
                   after_refusal
                 = (Ok (DeleteObject.mkOutput None), renamed))
    by (vm_compute; reflexivity).
  destruct (rename_moves_the_object plain_bucket objects "a.txt" "b.txt"
              healthy _ _ _ _ Hne Hcopy Hdel) as [Hrun Hmoved].
  destruct (Hmoved mem_copy_duplicates mem_delete_removes) as [Ha Hb].
  exact (conj Hne (conj Hcopy (conj Hdel (conj Hrun (conj Ha Hb))))).
Defined.

(** ** How the pieces compose *)

(** X18. [getText] is [get] followed by the reading of the body: for every
    key and in every world it behaves as the method that awaits [get],
    resolves with the empty string on [null] and with [streamToString] of
    the body otherwise. *)
Theorem getText_is_get_then_streamToString
    {St : Type} (this : AWSS3Bucket St) (key : string) (w : World St) :
  getText this key w =
    (body ← get this key;
     match body with
     | None => mret (text_of_string "")
     | Some stream => streamToString stream
     end) w.
Proof.
  destruct (client this (GetObjectCommand (keyed this key)) (backend w))
    as [r s1] eqn:Hget.
  pose proof (getRaw_answer this key w r s1 Hget) as Hraw.
  unfold getText, get. destruct r as [rsp|e].
  - rewrite (await_Ok _ _ _ _ _ Hraw).
    erewrite (await_Ok (getRaw this key None ≫= _));
      [reflexivity|].
    by rewrite (await_Ok _ _ _ _ _ Hraw).
  - rewrite (await_Thrown _ _ _ _ _ Hraw).
    erewrite (await_Thrown (getRaw this key None ≫= _));
      [reflexivity|].
    by rewrite (await_Thrown _ _ _ _ _ Hraw).
Qed.

(** X19. Cutting a blob into a stream and reading the stream back as text
    gives the text of the bytes of the blob, for every chunk size of at
    least one byte: a cut inside the bytes of a code point does no harm. *)
Theorem blob_stream_reads_back_as_the_text_of_the_blob
    {St : Type} (b : Buffer) (C : Z) (w : World St) :
  0 < C →
  ∃ emitted,
    drain (S (length b)) (blobToReadable b (Some C)) = Some emitted ∧
    streamToString (mkReadable emitted Ended) w = (Ok (Utf8.decode b), w).
Proof.
  intros HC. destruct (drain_delivers b C HC) as (cs & Hcs & Hcat).
  exists cs. split; [exact Hcs|].
  rewrite streamToString_ended by done. simpl. by rewrite Hcat.
Qed.

(** Witness of X19: five bytes cut every two. *)
Lemma blob_stream_reads_back_as_the_text_of_the_blob_witness :
  0 < 2 ∧
  ∃ emitted,
    drain (S (length five_bytes)) (blobToReadable five_bytes (Some 2))
      = Some emitted ∧
    streamToString (mkReadable emitted Ended) healthy
      = (Ok (Utf8.decode five_bytes), healthy).
Proof.
  assert (H : 0 < 2) by reflexivity.
  exact (conj H
           (blob_stream_reads_back_as_the_text_of_the_blob five_bytes 2
              healthy H)).
Defined.
